(** * kcc: the g++ diagnostic classifier and beautifier

    A shallow embedding of [kaedenn/gcc/parser.py] and
    [kaedenn/gcc/beautifier.py], with the properties of the line classifier
    ([Parser.parse_line]), the balanced-delimiter tokenizer
    ([Parser._next_token]), the with-clause resolver
    ([Beautifier._parse_with_stmts]) and the level-gated rewriting
    ([Beautifier.build]).

    - Text is a Python string seen as a sequence of code points, so that the
      typographic quotes U+2018 and U+2019 of the code pattern are single
      characters.
    - A Python exception is a value of type [exn]; a function that may raise
      returns a [result].
    - The dictionary [self._attributes], which [parse_line] updates in place
      and returns, is a field of the instance; a call takes the instance and
      gives the instance back.
    - The tables [_str_types] and [_replacements] are read in the order in
      which the source writes them.
    - [textwrap] is not part of the sources: the wrapper of a beautifier is
      an optional function on text. *)

From Stdlib Require Import List NArith ZArith String Ascii Bool Lia.
From Stdlib Require Import DecimalString.
Import ListNotations.

(** ** Exceptions *)

Inductive exn : Type := ValueError | IndexError.

Definition result (A : Type) : Type := (A + exn)%type.

Definition ret {A : Type} (a : A) : result A := inl a.
Definition raise {A : Type} (e : exn) : result A := inr e.

Definition bind {A B : Type} (c : result A) (k : A -> result B) : result B :=
  match c with
  | inl a => k a
  | inr e => inr e
  end.

Notation "x <- c ;; k" := (bind c (fun x => k))
  (at level 61, c at next level, right associativity).

(** ** Python strings *)

Module Py.

Definition char : Type := N.
Definition text : Type := list char.

Definition ch (a : ascii) : char := N_of_ascii a.

(** An ASCII literal as text. *)
Definition u (s : string) : text := map ch (list_ascii_of_string s).

Definition ischar (a : ascii) (c : char) : bool := N.eqb c (ch a).

Fixpoint eqb (s t : text) : bool :=
  match s, t with
  | [], [] => true
  | c :: s', d :: t' => N.eqb c d && eqb s' t'
  | _, _ => false
  end.

Definition in_range (lo hi c : N) : bool := N.leb lo c && N.leb c hi.

(** The characters [str.strip()] and [str.split()] remove: Python's
    whitespace (the six ASCII ones on a byte string, the Unicode ones on a
    unicode string). *)
Definition isspace (c : char) : bool :=
  in_range 9 13 c || in_range 28 32 c || N.eqb c 133 || N.eqb c 160
  || N.eqb c 5760 || N.eqb c 6158 || in_range 8192 8202 c
  || N.eqb c 8232 || N.eqb c 8233 || N.eqb c 8239 || N.eqb c 8287
  || N.eqb c 12288.

Definition isdigit (c : char) : bool := in_range 48 57 c.

Fixpoint dropwhile (p : char -> bool) (s : text) : text :=
  match s with
  | [] => []
  | c :: s' => if p c then dropwhile p s' else s
  end.

Fixpoint takewhile (p : char -> bool) (s : text) : text :=
  match s with
  | [] => []
  | c :: s' => if p c then c :: takewhile p s' else []
  end.

Definition lstrip (s : text) : text := dropwhile isspace s.
Definition rstrip (s : text) : text := rev (dropwhile isspace (rev s)).
(** [s.strip()] *)
Definition strip (s : text) : text := rstrip (lstrip s).

(** [s.startswith(p)] *)
Fixpoint startswith (p s : text) : bool :=
  match p, s with
  | [], _ => true
  | a :: p', c :: s' => N.eqb a c && startswith p' s'
  | _ :: _, [] => false
  end.

(** [sub in s] *)
Fixpoint contains (sub s : text) : bool :=
  startswith sub s ||
  match s with
  | [] => false
  | _ :: s' => contains sub s'
  end.

(** [s.find(sub)] for a [sub] that occurs in [s]; [None] stands for -1. *)
Fixpoint find (sub s : text) : option nat :=
  if startswith sub s then Some 0
  else match s with
       | [] => None
       | _ :: s' => option_map S (find sub s')
       end.

(** [s[a:b]] for offsets [0 <= a], [0 <= b]; [s[a:]] is [skipn a s]. *)
Definition slice (s : text) (a b : nat) : text := firstn (b - a) (skipn a s).

(** [s[1:-1]] *)
Definition slice_1_m1 (s : text) : text := removelast (tl s).

(** The scan of [s.replace(old, new)] for a non-empty [old]: left to right,
    occurrences that do not overlap; [skip] counts the characters of the
    occurrence just replaced that are still to be passed. *)
Fixpoint replace_scan (old new : text) (skip : nat) (s : text) : text :=
  match s with
  | [] => []
  | c :: s' =>
      match skip with
      | S k => replace_scan old new k s'
      | O =>
          if startswith old s
          then new ++ replace_scan old new (pred (List.length old)) s'
          else c :: replace_scan old new 0 s'
      end
  end.

(** [s.replace(old, new)]; an empty [old] matches before every character and
    at the end. *)
Definition replace (old new s : text) : text :=
  match old with
  | [] => new ++ flat_map (fun c => c :: new) s
  | _ :: _ => replace_scan old new 0 s
  end.

(** The scan of [s.split(sep)] for a non-empty [sep]; [cur] is the piece being
    read, reversed. *)
Fixpoint split_scan (sep : text) (skip : nat) (cur : text) (s : text)
  : list text :=
  match s with
  | [] => [rev cur]
  | c :: s' =>
      match skip with
      | S k => split_scan sep k cur s'
      | O =>
          if startswith sep s
          then rev cur :: split_scan sep (pred (List.length sep)) [] s'
          else split_scan sep 0 (c :: cur) s'
      end
  end.

(** [s.split(sep)], [sep] not empty. *)
Definition split (sep s : text) : list text := split_scan sep 0 [] s.

(** The scan of [s.split()]: the maximal runs of characters that are not
    whitespace. *)
Fixpoint words_scan (cur : text) (s : text) : list text :=
  match s with
  | [] => match cur with [] => [] | _ :: _ => [rev cur] end
  | c :: s' =>
      if isspace c
      then match cur with
           | [] => words_scan [] s'
           | _ :: _ => rev cur :: words_scan [] s'
           end
      else words_scan (c :: cur) s'
  end.

(** [s.split()] *)
Definition split_ws (s : text) : list text := words_scan [] s.

(** [sep.join(l)] *)
Fixpoint join (sep : text) (l : list text) : text :=
  match l with
  | [] => []
  | [x] => x
  | x :: l' => x ++ sep ++ join sep l'
  end.

(** [x in l] for a list of strings *)
Definition mem (x : text) (l : list text) : bool := existsb (eqb x) l.

Fixpoint digits_value (acc : Z) (s : text) : option Z :=
  match s with
  | [] => Some acc
  | c :: s' =>
      if isdigit c
      then digits_value (10 * acc + Z.of_N (c - 48))%Z s'
      else None
  end.

(** [int(s)] on a stripped string that starts with an ASCII digit (the only
    strings the classifier converts): the value of a string of ASCII decimal
    digits, [ValueError] otherwise. *)
Definition int (s : text) : result Z :=
  match s with
  | [] => raise ValueError
  | _ :: _ =>
      match digits_value 0 s with
      | Some n => ret n
      | None => raise ValueError
      end
  end.

(** [l[i]] *)
Definition index {A : Type} (l : list A) (i : nat) : result A :=
  match nth_error l i with
  | Some x => ret x
  | None => raise IndexError
  end.

End Py.

Import Py.

(** ** The regular expressions of the two classes

    Each pattern is matched by a function written for it.  In every pattern a
    greedy character class is followed by a character outside the class, so
    the only run that can match is the maximal one and backtracking never
    finds another match. *)

Module Re.

(** The characters [\s] matches (no [re.UNICODE] flag). *)
Definition re_space (c : char) : bool :=
  in_range 9 13 c || N.eqb c 32.

(** [$]: at the end of the string, or before a newline that ends it. *)
Definition at_end (rest : text) : bool :=
  match rest with
  | [] => true
  | [c] => N.eqb c 10
  | _ => false
  end.

(** [s] without the prefix [p], when it starts with it. *)
Fixpoint strip_prefix (p s : text) : option text :=
  match p, s with
  | [], _ => Some s
  | a :: p', c :: s' => if N.eqb a c then strip_prefix p' s' else None
  | _ :: _, [] => None
  end.

(** [_line_group_sep], [(?:(?<!:):(?!:))|\,$]: is the character [c], which
    follows [prev] and precedes [rest], a separator? *)
Definition is_sep (prev : option char) (c : char) (rest : text) : bool :=
  (ischar ":" c
   && negb (match prev with Some p => ischar ":" p | None => false end)
   && negb (match rest with n :: _ => ischar ":" n | [] => false end))
  || (ischar "," c && at_end rest).

Fixpoint split_sep_scan (prev : option char) (cur : text) (s : text)
  : list text :=
  match s with
  | [] => [rev cur]
  | c :: s' =>
      if is_sep prev c s'
      then rev cur :: split_sep_scan (Some c) [] s'
      else split_sep_scan (Some c) (c :: cur) s'
  end.

(** [re.split(self._line_group_sep, s)] *)
Definition split_sep (s : text) : list text := split_sep_scan None [] s.

(** [re.match(self._line_groups["file"], s)], the pattern [[^: ]+]. *)
Definition match_file (s : text) : bool :=
  match s with
  | c :: _ => negb (ischar ":" c) && negb (ischar " " c)
  | [] => false
  end.

(** [re.match] of the patterns ["line"] and ["column"], [[0-9]+]. *)
Definition match_number (s : text) : bool :=
  match s with
  | c :: _ => isdigit c
  | [] => false
  end.

(** [re.match(self._line_groups["message"], s)], the pattern [.+]. *)
Definition match_message (s : text) : bool :=
  match s with
  | c :: _ => negb (N.eqb c 10)
  | [] => false
  end.

Definition is_word (c : char) : bool :=
  in_range 65 90 c || in_range 97 122 c || isdigit c || ischar "_" c.

Definition is_hex (c : char) : bool :=
  in_range 65 70 c || in_range 97 102 c || isdigit c || ischar "_" c.

(** [re.match(self._line_groups["linker"], s)], the pattern
    [\(\.[A-Za-z0-9_]+\+0x[A-Fa-f0-9_]+\)]. *)
Definition match_linker (s : text) : bool :=
  match strip_prefix (u "(.") s with
  | None => false
  | Some r =>
      match takewhile is_word r with
      | [] => false
      | _ :: _ =>
          match strip_prefix (u "+0x") (dropwhile is_word r) with
          | None => false
          | Some r2 =>
              match takewhile is_hex r2, dropwhile is_hex r2 with
              | _ :: _, c :: _ => ischar ")" c
              | _, _ => false
              end
          end
      end
  end.

Definition not_colon (c : char) : bool := negb (ischar ":" c).

(** The pattern ["sys_file"],
    [\/usr\/include\/[^:]+:(?:[0-9]+(?:: |\,$)?)?], at the start of [s]: the
    length of the match. *)
Definition sys_file_at (s : text) : option nat :=
  match strip_prefix (u "/usr/include/") s with
  | None => None
  | Some r =>
      match takewhile not_colon r, dropwhile not_colon r with
      | (_ :: _) as name, _ :: r2 =>
          let n0 := 13 + List.length name + 1 in
          match takewhile isdigit r2 with
          | [] => Some n0
          | (_ :: _) as digits =>
              let n1 := n0 + List.length digits in
              let r3 := dropwhile isdigit r2 in
              if startswith (u ": ") r3 then Some (n1 + 2)
              else match r3 with
                   | c :: r4 =>
                       if ischar "," c && at_end r4 then Some (n1 + 1)
                       else Some n1
                   | [] => Some n1
                   end
          end
      | _, _ => None
      end
  end.

(** [re.match(self._line_groups["sys_file"], s)] *)
Definition match_sys_file (s : text) : bool :=
  match sys_file_at s with
  | Some _ => true
  | None => false
  end.

Fixpoint sub_sys_file_scan (skip : nat) (s : text) : text :=
  match s with
  | [] => []
  | c :: s' =>
      match skip with
      | S k => sub_sys_file_scan k s'
      | O =>
          match sys_file_at s with
          | Some n => sub_sys_file_scan (pred n) s'
          | None => c :: sub_sys_file_scan 0 s'
          end
      end
  end.

(** [re.sub(self._line_groups["sys_file"], "", s)] *)
Definition sub_sys_file (s : text) : text := sub_sys_file_scan 0 s.

Definition not_rbracket (c : char) : bool := negb (ischar "]" c).

(** The pattern [_with_stmt], [\[with\s*(?P<with>[^\]]+)\]], at the start of
    [s]: the group ["with"] and the length of the match.  [\s*] takes the
    whitespace that follows [[with]; when nothing else precedes the [']'] it
    gives its last character back to the group. *)
Definition with_at (s : text) : option (text * nat) :=
  match strip_prefix (u "[with") s with
  | None => None
  | Some r =>
      match takewhile not_rbracket r, dropwhile not_rbracket r with
      | (_ :: _) as body, _ :: _ =>
          let g := dropwhile re_space body in
          Some (match g with
                | [] => [last body 0%N]
                | _ :: _ => g
                end,
                5 + List.length body + 1)
      | _, _ => None
      end
  end.

(** [re.search(self._with_stmt, s)]: the group ["with"] of the first match. *)
Fixpoint search_with (s : text) : option text :=
  match with_at s with
  | Some (g, _) => Some g
  | None =>
      match s with
      | [] => None
      | _ :: s' => search_with s'
      end
  end.

Fixpoint sub_with_scan (skip : nat) (s : text) : text :=
  match s with
  | [] => []
  | c :: s' =>
      match skip with
      | S k => sub_with_scan k s'
      | O =>
          match with_at s with
          | Some (_, n) => sub_with_scan (pred n) s'
          | None => c :: sub_with_scan 0 s'
          end
      end
  end.

(** [re.sub(self._with_stmt, "", s)] *)
Definition sub_with (s : text) : text := sub_with_scan 0 s.

Definition lquote : char := 8216%N.
Definition rquote : char := 8217%N.
Definition not_rquote (c : char) : bool := negb (N.eqb c rquote).

(** The pattern [_message_groups["code"]], [\u2018[^\u2019]+\u2019], at the
    start of [s]: the text matched, quotes included. *)
Definition code_at (s : text) : option text :=
  match s with
  | c :: r =>
      if N.eqb c lquote
      then match takewhile not_rquote r, dropwhile not_rquote r with
           | (_ :: _) as body, q :: _ => Some (c :: body ++ [q])
           | _, _ => None
           end
      else None
  | [] => None
  end.

Fixpoint findall_code_scan (skip : nat) (s : text) : list text :=
  match s with
  | [] => []
  | _ :: s' =>
      match skip with
      | S k => findall_code_scan k s'
      | O =>
          match code_at s with
          | Some m => m :: findall_code_scan (pred (List.length m)) s'
          | None => findall_code_scan 0 s'
          end
      end
  end.

(** [re.findall(self._message_groups["code"], s)] *)
Definition findall_code (s : text) : list text := findall_code_scan 0 s.

End Re.

(** ** The records of a parsed line *)

Inductive line_type : Type := LT_ERROR | LT_WARNING | LT_MESSAGE | LT_NOTE.

(** A code dictionary: ["raw"], and the keys ["with_tokens"] and
    ["formatted"] that the beautifier adds. *)
Record code : Type := {
  code_raw : text;
  code_with_tokens : option (list (text * text));
  code_formatted : option text
}.

(** The message dictionary. *)
Record message : Type := {
  msg_raw : text;
  msg_codelist : list code
}.

(** The attributes dictionary; ["type"] is [None] until the line is
    classified, ["line"] and ["column"] are -1 when absent, the key
    ["sys_file"] exists only once a file name has been read. *)
Record attributes : Type := {
  attr_raw : text;
  attr_type : option line_type;
  attr_file : text;
  attr_line : Z;
  attr_column : Z;
  attr_sys_file : option bool;
  attr_message : message
}.

Definition set_raw (a : attributes) (v : text) : attributes :=
  {| attr_raw := v; attr_type := attr_type a; attr_file := attr_file a;
     attr_line := attr_line a; attr_column := attr_column a;
     attr_sys_file := attr_sys_file a; attr_message := attr_message a |}.

Definition set_type (a : attributes) (v : line_type) : attributes :=
  {| attr_raw := attr_raw a; attr_type := Some v; attr_file := attr_file a;
     attr_line := attr_line a; attr_column := attr_column a;
     attr_sys_file := attr_sys_file a; attr_message := attr_message a |}.

Definition set_file (a : attributes) (v : text) : attributes :=
  {| attr_raw := attr_raw a; attr_type := attr_type a; attr_file := v;
     attr_line := attr_line a; attr_column := attr_column a;
     attr_sys_file := attr_sys_file a; attr_message := attr_message a |}.

Definition set_line (a : attributes) (v : Z) : attributes :=
  {| attr_raw := attr_raw a; attr_type := attr_type a; attr_file := attr_file a;
     attr_line := v; attr_column := attr_column a;
     attr_sys_file := attr_sys_file a; attr_message := attr_message a |}.

Definition set_column (a : attributes) (v : Z) : attributes :=
  {| attr_raw := attr_raw a; attr_type := attr_type a; attr_file := attr_file a;
     attr_line := attr_line a; attr_column := v;
     attr_sys_file := attr_sys_file a; attr_message := attr_message a |}.

Definition set_sys_file (a : attributes) (v : bool) : attributes :=
  {| attr_raw := attr_raw a; attr_type := attr_type a; attr_file := attr_file a;
     attr_line := attr_line a; attr_column := attr_column a;
     attr_sys_file := Some v; attr_message := attr_message a |}.

Definition set_message (a : attributes) (v : message) : attributes :=
  {| attr_raw := attr_raw a; attr_type := attr_type a; attr_file := attr_file a;
     attr_line := attr_line a; attr_column := attr_column a;
     attr_sys_file := attr_sys_file a; attr_message := v |}.

(** ** gcc.parser.Parser *)

Module Parser.

(** The mutable part of an instance: [self._line] and [self._attributes].
    [parse_line] returns the dictionary [self._attributes] itself, not a
    copy. *)
Record t : Type := {
  _line : text;
  _attributes : attributes
}.

(** [Parser.__init__(self, line)] *)
Definition __init__ (line : text) : t :=
  {| _line := line;
     _attributes :=
       {| attr_raw := line; attr_type := None; attr_file := [];
          attr_line := (-1)%Z; attr_column := (-1)%Z; attr_sys_file := None;
          attr_message := {| msg_raw := []; msg_codelist := [] |} |} |}.

Definition raw_code (s : text) : code :=
  {| code_raw := s; code_with_tokens := None; code_formatted := None |}.

(** [Parser._parse_message(self, segments)] *)
Definition _parse_message (segments : list text) : message :=
  let message := join (u ": ") segments in
  let codes := Re.findall_code message in
  {| msg_raw := message;
     msg_codelist :=
       match codes with
       | _ :: _ => map (fun c => raw_code (slice_1_m1 c)) codes
       | [] =>
           match segments with
           | [] => []
           | s0 :: rest =>
               if eqb s0 (u "candidates are")
               then [raw_code (join (u ":") rest)]
               else [raw_code (join (u ":") segments)]
           end
       end |}.

(** The dictionary [depth] of [_next_token] and [_parse_with_stmts]: one
    counter for each of the keys ["<"], ["["], ["{"], ["("]. *)
Record depth : Type := {
  d_angle : Z;
  d_square : Z;
  d_brace : Z;
  d_paren : Z
}.

Definition depth0 : depth :=
  {| d_angle := 0; d_square := 0; d_brace := 0; d_paren := 0 |}.

Inductive bracket : Type := Angle | Square | Brace | Paren.

(** [c in depth], with the key found. *)
Definition opener (c : char) : option bracket :=
  if ischar "<" c then Some Angle
  else if ischar "[" c then Some Square
  else if ischar "{" c then Some Brace
  else if ischar "(" c then Some Paren
  else None.

(** [c in ends], with [ends[c]]. *)
Definition closer (c : char) : option bracket :=
  if ischar ">" c then Some Angle
  else if ischar "]" c then Some Square
  else if ischar "}" c then Some Brace
  else if ischar ")" c then Some Paren
  else None.

Definition get (d : depth) (b : bracket) : Z :=
  match b with
  | Angle => d_angle d
  | Square => d_square d
  | Brace => d_brace d
  | Paren => d_paren d
  end.

Definition add (d : depth) (b : bracket) (n : Z) : depth :=
  match b with
  | Angle => {| d_angle := d_angle d + n; d_square := d_square d;
                d_brace := d_brace d; d_paren := d_paren d |}
  | Square => {| d_angle := d_angle d; d_square := d_square d + n;
                 d_brace := d_brace d; d_paren := d_paren d |}
  | Brace => {| d_angle := d_angle d; d_square := d_square d;
                d_brace := d_brace d + n; d_paren := d_paren d |}
  | Paren => {| d_angle := d_angle d; d_square := d_square d;
                d_brace := d_brace d; d_paren := d_paren d + n |}
  end%Z.

(** [set(depth.values()) == set([0])] *)
Definition all_zero (d : depth) : bool :=
  Z.eqb (d_angle d) 0 && Z.eqb (d_square d) 0
  && Z.eqb (d_brace d) 0 && Z.eqb (d_paren d) 0.

(** [c in delims] *)
Definition is_delim (c : char) : bool := ischar "," c || ischar "=" c.

(** The loop of [_next_token] over [enumerate(line[begin:])]: [d] is the
    dictionary [depth], [i] the index, [rest] what is left of [line[begin:]].
    [None] is Python's [None], returned by the bare [return] and by the end
    of the function. *)
Fixpoint next_token_loop (line : text) (begin : nat) (d : depth) (i : nat)
    (rest : text) : option text :=
  match rest with
  | [] => None
  | c :: rest' =>
      if is_delim c && all_zero d
      then Some (strip (slice line begin (begin + i)))
      else
        match opener c with
        | Some b => next_token_loop line begin (add d b 1) (S i) rest'
        | None =>
            match closer c with
            | Some b =>
                let d' := add d b (-1) in
                if (get d' b <? 0)%Z then None
                else next_token_loop line begin d' (S i) rest'
            | None => next_token_loop line begin d (S i) rest'
            end
        end
  end.

(** [Parser._next_token(self, line, begin = 0)], for an offset
    [begin >= 0]. *)
Definition _next_token (line : text) (begin : nat) : option text :=
  next_token_loop line begin depth0 0 (skipn begin line).

(** The first segment, once an ["In file included from"] or ["from"] prefix
    has been removed from it. *)
Definition normalize_first (s0 : text) : text :=
  if contains (u "In file included from") s0
  then join [] (skipn 4 (split_ws s0))
  else if eqb (slice s0 0 4) (u "from")
  then skipn 5 s0
  else s0.

Section ParseLine.

(** [self._parse_message], which the subclass overrides. *)
Variable parse_message : list text -> result message.

(** The branch of [parse_line] taken once [segments[1]] has matched the
    pattern ["line"]. *)
Definition classify_numbered (a : attributes) (segments : list text)
  : result attributes :=
  s1 <- index segments 1 ;;
  n <- int s1 ;;
  let a := set_line a n in
  if mem (u "error") segments && (2 <? List.length segments)
  then
    let a := set_type a LT_ERROR in
    s2 <- index segments 2 ;;
    if eqb s2 (u "error")
    then m <- parse_message (skipn 3 segments) ;; ret (set_message a m)
    else
      s3 <- index segments 3 ;;
      if eqb s3 (u "error")
      then
        a <- (if Re.match_number s2
              then c <- int s2 ;; ret (set_column a c)
              else ret a) ;;
        m <- parse_message (skipn 4 segments) ;; ret (set_message a m)
      else ret a
  else
    s2 <- index segments 2 ;;
    if eqb s2 (u "warning")
    then m <- parse_message (skipn 3 segments) ;;
         ret (set_message (set_type a LT_WARNING) m)
    else if eqb s2 (u "note")
    then m <- parse_message (skipn 3 segments) ;;
         ret (set_message (set_type a LT_NOTE) m)
    else m <- parse_message (skipn 2 segments) ;;
         ret (set_message (set_type a LT_NOTE) m).

(** [parse_line] from the test of ["collect2"] on, for two segments or more;
    [segments[0]] has been normalized. *)
Definition classify (a : attributes) (segments : list text)
  : result attributes :=
  s0 <- index segments 0 ;;
  if eqb s0 (u "collect2")
  then ret (set_type a LT_MESSAGE)
  else if Re.match_file s0
  then
    let a := set_sys_file (set_file a s0) (Re.match_sys_file s0) in
    s1 <- index segments 1 ;;
    if Re.match_linker s1
    then m <- parse_message (skipn 2 segments) ;;
         ret (set_message (set_type a LT_WARNING) m)
    else if Re.match_number s1
    then classify_numbered a segments
    else if Re.match_message s1
    then m <- parse_message (skipn 1 segments) ;;
         ret (set_message (set_type a LT_NOTE) m)
    else ret a
  else ret a.

(** [parse_line(self, line = "")]: the dictionary returned and the instance
    after the call.  The dictionary is [self._attributes], updated in place:
    a key the call does not assign keeps the value it had. *)
Definition parse_line_with (self : t) (line : text)
  : result (attributes * t) :=
  let l := match line with
           | _ :: _ => if negb (eqb line (_line self)) then line
                       else _line self
           | [] => _line self
           end in
  let l := strip l in
  let a := set_raw (_attributes self) l in
  let segments := map strip (Re.split_sep l) in
  a' <- match segments with
        | [] => ret a
        | [_] =>
            let a := set_type (set_file a (u "<unknown>")) LT_NOTE in
            m <- parse_message segments ;; ret (set_message a m)
        | s0 :: rest => classify a (normalize_first s0 :: rest)
        end ;;
  ret (a', {| _line := l; _attributes := a' |}).

End ParseLine.

(** [Parser.parse_line] *)
Definition parse_line (self : t) (line : text) : result (attributes * t) :=
  parse_line_with (fun segments => ret (_parse_message segments)) self line.

End Parser.

(** ** gcc.beautifier.Beautifier *)

Module Beautifier.

Import Parser.

Definition LV_NONE : Z := 0.
Definition LV_NORMAL : Z := 1.
Definition LV_MODERATE : Z := 2.
Definition LV_HIGH : Z := 3.
Definition LV_ALL : Z := 4.

(** [self._str_types], in the order of the source. *)
Definition _str_types : list (text * text) :=
  [ (u "basic_ios<%s, char_traits<%s>>", u "ios");
    (u "basic_streambuf<%s, char_traits<%s>>", u "streambuf");
    (u "basic_istream<%s, char_traits<%s>>", u "istream");
    (u "basic_ostream<%s, char_traits<%s>>", u "ostream");
    (u "basic_iostream<%s, char_traits<%s>>", u "iostream");
    (u "basic_ifstream<%s, char_traits<%s>>", u "ifstream");
    (u "basic_ofstream<%s, char_traits<%s>>", u "ofstream");
    (u "basic_fstream<%s, char_traits<%s>>", u "fstream");
    (u "basic_istringstream<%s, char_traits<%s>, allocator<%s>>",
     u "istringstream");
    (u "basic_ostringstream<%s, char_traits<%s>, allocator<%s>>",
     u "ostringstream");
    (u "basic_stringstream<%s, char_traits<%s>, allocator<%s>>",
     u "stringstream");
    (u "basic_string<%s, char_traits<%s>, allocator<%s>>", u "string") ].

(** [self._replacements], in the order of the source. *)
Definition _replacements : list (text * list (text * text)) :=
  [ (u "vector",
     [ (u "vector<%s, allocator<%s>>", u "vector<%s>");
       (u "typename vector<%s>::value_type", u "%s") ]);
    (u "list",
     [ (u "list<%s, allocator<%s>>", u "list<%s>");
       (u "typename list<%s>::value_type", u "%s") ]);
    (u "queue",
     [ (u "queue<%s, deque<%s>>", u "queue<%s>");
       (u "typename queue<%s>::value_type", u "%s") ]);
    (u "deque",
     [ (u "deque<%s, allocator<%s>>", u "deque<%s>");
       (u "typename deque<%s>::value_type", u "%s") ]);
    (u "stack",
     [ (u "stack<%s, deque<%s>>", u "stack<%s>");
       (u "typename stack<%s>::value_type", u "%s") ]);
    (u "set",
     [ (u "set<%s, less<%s>, allocator<%s>>", u "set<%s>");
       (u "typename set<%s>::value_type", u "%s") ]) ].

(** [self._char_types] *)
Definition _char_types : list text := [u "char"; u "wchar_t"].

(** The loop of [_parse_with_stmts] over [enumerate(stmt + ",")]; the
    unpacking [key, value = ....split("=")] raises [ValueError] unless the
    split has two pieces. *)
Fixpoint with_stmts_loop (stmt : text) (d : depth) (begin i : nat)
    (tokens : list (text * text)) (rest : text)
  : result (list (text * text)) :=
  match rest with
  | [] => ret tokens
  | c :: rest' =>
      if ischar "," c && all_zero d
      then
        match split (u "=") (slice stmt begin i) with
        | [key; value] =>
            with_stmts_loop stmt d (i + 1) (S i)
              (tokens ++ [(strip key, strip value)]) rest'
        | _ => raise ValueError
        end
      else
        match opener c with
        | Some b => with_stmts_loop stmt (add d b 1) begin (S i) tokens rest'
        | None =>
            match closer c with
            | Some b =>
                with_stmts_loop stmt (add d b (-1)) begin (S i) tokens rest'
            | None => with_stmts_loop stmt d begin (S i) tokens rest'
            end
        end
  end.

(** [Beautifier._parse_with_stmts(self, code)] *)
Definition _parse_with_stmts (code : text) : result (list (text * text)) :=
  match Re.search_with code with
  | Some stmt => with_stmts_loop stmt depth0 0 0 [] (stmt ++ u ",")
  | None => ret []
  end.

(** [Beautifier._compact_typedefs(self, message)] *)
Definition _compact_typedefs (message : text) : text :=
  fold_left
    (fun message (entry : text * text) =>
       fold_left
         (fun message c =>
            let tp := replace (u "%s") c (fst entry) in
            if contains tp message
            then
              let r := snd entry in
              let r := match c with
                       | c0 :: _ => if ischar "w" c0 then u "w" ++ r else r
                       | [] => r
                       end in
              replace tp r message
            else message)
         _char_types message)
    _str_types message.

(** [Beautifier._parse_templates(self, message)] *)
Definition _parse_templates (message : text) : text :=
  fold_left
    (fun message (entry : text * list (text * text)) =>
       let container := fst entry in
       match find container message with
       | Some pos =>
           let begin := pos + List.length container + 1 in
           match _next_token message begin with
           | Some ((_ :: _) as tp) =>
               fold_left
                 (fun message (fs : text * text) =>
                    replace (replace (u "%s") tp (fst fs))
                            (replace (u "%s") tp (snd fs)) message)
                 (snd entry) message
           | _ => message
           end
       | None => message
       end)
    _replacements message.

Fixpoint map_result {A B : Type} (f : A -> result B) (l : list A)
  : result (list B) :=
  match l with
  | [] => ret []
  | x :: l' => y <- f x ;; ys <- map_result f l' ;; ret (y :: ys)
  end.

(** [Beautifier._parse_message(self, segments)] *)
Definition _parse_message (segments : list text) : result message :=
  let attributes := Parser._parse_message segments in
  codes <- map_result
             (fun c =>
                toks <- _parse_with_stmts (code_raw c) ;;
                ret {| code_raw := code_raw c;
                       code_with_tokens := Some toks;
                       code_formatted := code_formatted c |})
             (msg_codelist attributes) ;;
  ret {| msg_raw := msg_raw attributes; msg_codelist := codes |}.

(** [parse_line], inherited, with the method [_parse_message] of the
    subclass. *)
Definition parse_line (self : Parser.t) (line : text)
  : result (attributes * Parser.t) :=
  parse_line_with _parse_message self line.

(** An instance: the fields of the parser, and [self._level],
    [self._result] and [self._wrapper].  The wrapper is [None] or the method
    [fill] of a [textwrap.TextWrapper]. *)
Record t : Type := {
  parser : Parser.t;
  _level : Z;
  _width : Z;
  _result : text;
  _wrapper : option (text -> text)
}.

(** [Beautifier.__init__(self, line, level, width, wrap)]; [fill] is
    [Some] of the wrapper's method when [wrap] is true. *)
Definition __init__ (line : text) (level width : Z)
    (fill : option (text -> text)) : t :=
  {| parser := Parser.__init__ line; _level := level; _width := width;
     _result := line; _wrapper := fill |}.

(** [while "> >" in s: s = s.replace("> >", ">>")]; a turn of the loop
    shortens [s], so [fuel] turns are enough when [fuel] is the length of
    [s] (lemma [collapse_loop_done]). *)
Fixpoint collapse_loop (fuel : nat) (s : text) : text :=
  match fuel with
  | O => s
  | S fuel' =>
      if contains (u "> >") s
      then collapse_loop fuel' (replace (u "> >") (u ">>") s)
      else s
  end.

Definition collapse (s : text) : text := collapse_loop (List.length s) s.

(** The rewriting of [code["formatted"]] under
    [if self._level >= Beautifier.LV_NORMAL]. *)
Definition rewrite_normal (c : code) (formatted : text) : text :=
  let formatted :=
    match code_with_tokens c with
    | Some tokens =>
        strip (Re.sub_with
                 (fold_left
                    (fun f (kv : text * text) => replace (fst kv) (snd kv) f)
                    tokens formatted))
    | None => formatted
    end in
  let formatted := collapse formatted in
  let formatted := replace (u "std::") [] formatted in
  let formatted := replace (u "__gnu_cxx::") [] formatted in
  let formatted := _compact_typedefs formatted in
  _parse_templates formatted.

(** The rewriting of [code["formatted"]] under
    [if self._level >= Beautifier.LV_MODERATE]. *)
Definition rewrite_moderate (formatted : text) : text :=
  replace (u "boost::") [] (replace (u "boost::detail::") [] formatted).

Definition set_formatted (c : code) (f : text) : code :=
  {| code_raw := code_raw c; code_with_tokens := code_with_tokens c;
     code_formatted := Some f |}.

(** The loop of [build] over the code list: whether [return ""] was
    reached, [self._result], and the code list with ["formatted"]
    assigned. *)
Fixpoint build_loop (level : Z) (result : text) (codes : list code)
  : bool * text * list code :=
  match codes with
  | [] => (false, result, [])
  | c :: rest =>
      let f := match code_formatted c with
               | Some f => f
               | None => code_raw c
               end in
      let f := if (LV_NORMAL <=? level)%Z then rewrite_normal c f else f in
      if (LV_MODERATE <=? level)%Z
      then
        let result := Re.sub_sys_file result in
        if startswith (u "error: ") result
        then (true, result, set_formatted c f :: rest)
        else
          let f := rewrite_moderate f in
          let '(stop, result, rest') :=
            build_loop level (replace (code_raw c) f result) rest in
          (stop, result, set_formatted c f :: rest')
      else
        let '(stop, result, rest') :=
          build_loop level (replace (code_raw c) f result) rest in
        (stop, result, set_formatted c f :: rest')
  end.

Definition set_state (self : t) (result : text) (codes : list code) : t :=
  let p := parser self in
  let a := Parser._attributes p in
  {| parser :=
       {| Parser._line := Parser._line p;
          Parser._attributes :=
            set_message a {| msg_raw := msg_raw (attr_message a);
                             msg_codelist := codes |} |};
     _level := _level self; _width := _width self;
     _result := result; _wrapper := _wrapper self |}.

(** [Beautifier.build(self)]: the text returned and the instance after the
    call. *)
Definition build (self : t) : text * t :=
  if (_level self =? LV_NONE)%Z then (_result self, self)
  else
    let codes := msg_codelist (attr_message (Parser._attributes (parser self))) in
    let '(stop, result, codes) := build_loop (_level self) (_result self) codes in
    if stop then ([], set_state self result codes)
    else
      let result := strip result in
      let result := match _wrapper self with
                    | Some fill => fill result
                    | None => result
                    end in
      let self := set_state self result codes in
      if existsb (fun prefix => startswith prefix result)
           [u "from"; u "note: previous definition"; u "In file included from"]
      then ([], self)
      else (result, self).

(** What [build] makes of the code fragment [raw] at [level]: the value
    of [code["formatted"]] after the turn of the loop for a code whose
    ["raw"] is [raw] and whose ["with_tokens"] [_parse_message] computed. *)
Definition beautify (level : Z) (raw : text) : result text :=
  tokens <- _parse_with_stmts raw ;;
  let c := {| code_raw := raw; code_with_tokens := Some tokens;
              code_formatted := None |} in
  let f := if (LV_NORMAL <=? level)%Z then rewrite_normal c raw else raw in
  ret (if (LV_MODERATE <=? level)%Z then rewrite_moderate f else f).

(** One line through the formatter: [b = Beautifier(line, level, wrap)],
    [b.parse_line()], [b.build()]. *)
Definition process_line (level : Z) (fill : option (text -> text))
    (line : text) : result text :=
  let b := __init__ line level 72 fill in
  r <- parse_line (parser b) [] ;;
  let b := {| parser := snd r; _level := _level b; _width := _width b;
              _result := _result b; _wrapper := _wrapper b |} in
  ret (fst (build b)).

End Beautifier.

(** ** colors: the codes and the builders *)

Module Colors.

(** A color code, as the builders receive it: an integer (the constants of
    [_fake_codes]) or a string. *)
Inductive code : Type :=
| CInt (n : Z)
| CStr (s : text).

(** [str(code)] *)
Definition str (c : code) : text :=
  match c with
  | CInt n => u (DecimalString.NilZero.string_of_int (Z.to_int n))
  | CStr s => s
  end.

(** [code in l] for a list [l] of strings: an integer equals no string. *)
Definition code_in (c : code) (l : list text) : bool :=
  match c with
  | CInt _ => false
  | CStr s => mem s l
  end.

(** [_fake_codes._count()]: the counter after the call, which is also the
    value returned. *)
Definition _count (_counter : Z) : Z := (_counter + 1)%Z.

(** The names [_fake_codes] defines, in the order of the source; each is
    bound to the next value of the counter, which starts at -1. *)
Definition fake_names : list string :=
  [ "RESET"; "WHITE"; "BLACK"; "RED"; "BROWN"; "ORANGE"; "YELLOW"; "GREEN";
    "BLUE"; "CYAN"; "MAGENTA"; "DEFAULT";
    "WHITE_BG"; "BLACK_BG"; "RED_BG"; "BROWN_BG"; "ORANGE_BG"; "YELLOW_BG";
    "GREEN_BG"; "BLUE_BG"; "CYAN_BG"; "MAGENTA_BG"; "DEFAULT_BG";
    "BOLD"; "BOLD_OFF"; "UNDERLINE"; "UNDERLINE_OFF"; "BLINK"; "BLINK_OFF"
  ]%string.

Fixpoint bind_names (_counter : Z) (names : list string)
  : list (string * Z) :=
  match names with
  | [] => []
  | name :: rest =>
      let v := _count _counter in (name, v) :: bind_names v rest
  end.

(** The module [_fake_codes] after its import. *)
Definition _fake_codes : list (string * Z) := bind_names (-1) fake_names.

(** The attribute [name] of a module of codes. *)
Fixpoint attribute (m : list (string * Z)) (name : string) : code :=
  match m with
  | [] => CInt 0
  | (n, v) :: rest => if String.eqb n name then CInt v else attribute rest name
  end.

(** The constants [errmsg] reads from the module [Codes]. *)
Record codes : Type := {
  RESET : code;
  RED : code;
  BROWN : code;
  GREEN : code;
  BLUE : code
}.

Definition fake_codes : codes :=
  {| RESET := attribute _fake_codes "RESET";
     RED := attribute _fake_codes "RED";
     BROWN := attribute _fake_codes "BROWN";
     GREEN := attribute _fake_codes "GREEN";
     BLUE := attribute _fake_codes "BLUE" |}.

(** What the three modules use of a class [Builder]. *)
Class Builder : Type := {
  builder : Type;
  new : text -> builder;
  insert : builder -> Z -> code -> builder;
  result : builder -> text
}.

(** *** _posix_builder.Builder *)

Module Posix.

(** An instance: [self._str], and the dictionary [self._codes] as the list
    of its items, in the order in which the keys were added. *)
Record t : Type := {
  _str : text;
  _codes : list (Z * list text)
}.

Definition __init__ (string : text) : t :=
  {| _str := string; _codes := [] |}.

(** The character ESC, written [\033] in the source. *)
Definition esc : char := 27%N.

(** [_build_code(self, codelist)] *)
Definition _build_code (codelist : list text) : text :=
  esc :: u "[" ++ join (u ";") codelist ++ u "m".

(** [while index < 0: index = len(self._str) + 1 + index]; a turn adds at
    least one, so [fuel] turns are enough when [fuel] is [- index] (lemma
    [normalize_index_spec]). *)
Fixpoint normalize_loop (fuel : nat) (len index : Z) : Z :=
  match fuel with
  | O => index
  | S fuel' =>
      if (index <? 0)%Z
      then normalize_loop fuel' len (len + 1 + index)%Z
      else index
  end.

Definition normalize_index (len index : Z) : Z :=
  normalize_loop (Z.to_nat (- index)) len index.

(** [d.get(k)] *)
Fixpoint lookup (d : list (Z * list text)) (k : Z) : option (list text) :=
  match d with
  | [] => None
  | (k', v) :: rest => if (k' =? k)%Z then Some v else lookup rest k
  end.

(** [d[k] = v] for a key that [d] has. *)
Fixpoint assign (d : list (Z * list text)) (k : Z) (v : list text)
  : list (Z * list text) :=
  match d with
  | [] => []
  | (k', v') :: rest =>
      if (k' =? k)%Z then (k', v) :: rest else (k', v') :: assign rest k v
  end.

(** [insert(self, index, code)] *)
Definition insert (self : t) (index : Z) (c : code) : t :=
  let index := normalize_index (Z.of_nat (List.length (_str self))) index in
  match lookup (_codes self) index with
  | Some l =>
      if negb (code_in c l)
      then {| _str := _str self;
              _codes := assign (_codes self) index (l ++ [str c]) |}
      else self
  | None =>
      {| _str := _str self; _codes := _codes self ++ [(index, [str c])] |}
  end.

(** [update(self, codes)], for a dictionary [codes] given as the list of its
    items. *)
Definition update (self : t) (codes : list (Z * list code)) : t :=
  fold_left
    (fun self (item : Z * list code) =>
       fold_left (fun self c => insert self (fst item) c) (snd item) self)
    codes self.

(** [l.insert(i, x)] on a list: before the element of index [i], at the end
    when [i] is not less than the length; a negative [i] counts from the
    end. *)
Definition list_insert {A : Type} (l : list A) (i : Z) (x : A) : list A :=
  let n := Z.of_nat (List.length l) in
  let i := if (i <? 0)%Z then Z.max 0 (i + n) else Z.min i n in
  firstn (Z.to_nat i) l ++ x :: skipn (Z.to_nat i) l.

Fixpoint insert_desc (k : Z) (l : list Z) : list Z :=
  match l with
  | [] => [k]
  | h :: rest => if (h <=? k)%Z then k :: l else h :: insert_desc k rest
  end.

(** [sorted(keys, reverse = True)] *)
Definition sorted_reverse (keys : list Z) : list Z :=
  fold_right insert_desc [] keys.

(** [result(self)] *)
Definition result (self : t) : text :=
  let l := map (fun c => [c]) (_str self) in
  let l :=
    fold_left
      (fun l i =>
         list_insert l i
           (_build_code (match lookup (_codes self) i with
                         | Some codelist => codelist
                         | None => []
                         end)))
      (sorted_reverse (map fst (_codes self))) l in
  join [] l.

End Posix.

(** *** _fake_builder.Builder *)

Module Fake.

Record t : Type := {
  _str : text;
  _codes : list (Z * list text)
}.

Definition __init__ (string : text) : t :=
  {| _str := string; _codes := [] |}.

(** [insert(self, index, code)]: [pass] *)
Definition insert (self : t) (index : Z) (c : code) : t := self.

(** [update(self, codes)]: [pass] *)
Definition update (self : t) (codes : list (Z * list code)) : t := self.

Definition result (self : t) : text := _str self.

End Fake.

#[export] Instance posix_builder : Builder :=
  {| builder := Posix.t; new := Posix.__init__; insert := Posix.insert;
     result := Posix.result |}.

#[export] Instance fake_builder : Builder :=
  {| builder := Fake.t; new := Fake.__init__; insert := Fake.insert;
     result := Fake.result |}.

(** [colors.color(string, *colors)] with the class [Builder] that the
    import chose. *)
Definition color (B : Builder) (string : text) (colors : list code) : text :=
  result (fold_left (fun b c => insert b 0 c) colors (new string)).

(** [colors.color_only(string, *colors)], with the constant [RESET] of the
    module of codes. *)
Definition color_only (B : Builder) (reset : code) (string : text)
    (colors : list code) : text :=
  let b := fold_left (fun b c => insert b 0 c) colors (new string) in
  result (insert b (-1) reset).

End Colors.

(** ** errmsg *)

Module Errmsg.

Import Colors.

Section WithColors.

(** [Builder] and [Codes], as [errmsg] imports them from [kaedenn.colors]. *)
Context (B : Builder) (Codes : codes).

(** [highlight_line(string, color)] *)
Definition highlight_line (string : text) (color : code) : text :=
  let b := new string in
  let b := insert b 0 color in
  let b := insert b (-1) (RESET Codes) in
  result b.

Definition message (msg : text) : text := highlight_line msg (BROWN Codes).
Definition notify (msg : text) : text := highlight_line msg (BLUE Codes).
Definition warn (msg : text) : text := highlight_line msg (GREEN Codes).
Definition error (msg : text) : text := highlight_line msg (RED Codes).

End WithColors.

End Errmsg.

(** ** gcc.formatter *)

Module Formatter.

(** The characters at which [splitlines()] ends a line. *)
Definition is_linebreak (c : char) : bool :=
  in_range 10 13 c || in_range 28 30 c || N.eqb c 133
  || N.eqb c 8232 || N.eqb c 8233.

(** The scan of [s.splitlines()]; [cur] is the line being read, reversed.
    A carriage return and the line feed after it end one line. *)
Fixpoint splitlines_scan (cur : text) (s : text) : list text :=
  match s with
  | [] => match cur with [] => [] | _ :: _ => [rev cur] end
  | c :: s' =>
      if is_linebreak c
      then rev cur ::
           match s' with
           | d :: s'' =>
               if N.eqb c 13 && N.eqb d 10
               then splitlines_scan [] s''
               else splitlines_scan [] s'
           | [] => splitlines_scan [] s'
           end
      else splitlines_scan (c :: cur) s'
  end.

(** [s.splitlines()] *)
Definition splitlines (s : text) : list text := splitlines_scan [] s.

Section Format.

(** What [format] takes from outside its module: the builder and the codes
    of [kaedenn.colors], [os.linesep], [sys.argv], and the method [fill] of
    the [textwrap.TextWrapper] that a beautifier creates when it wraps. *)
Context (B : Colors.Builder) (Codes : Colors.codes).
Variable linesep : text.
Variable argv : list text.
Variable fill : text -> text.

(** The dictionary [color_types]. *)
Definition color_types (type : option line_type) : text -> text :=
  match type with
  | Some LT_ERROR => Errmsg.error B Codes
  | Some LT_WARNING => Errmsg.warn B Codes
  | Some LT_MESSAGE => Errmsg.message B Codes
  | Some LT_NOTE => Errmsg.notify B Codes
  | None => fun s => s
  end.

(** The loop of [format] over the lines: the list [result]. *)
Fixpoint format_loop (color : bool) (level : Z) (lines : list text)
  : result (list text) :=
  match lines with
  | [] => ret []
  | line :: rest =>
      let b := Beautifier.__init__ line level 72
                 (if mem (u "-w") argv then Some fill else None) in
      r <- Beautifier.parse_line (Beautifier.parser b) [] ;;
      let attribs := fst r in
      let b := {| Beautifier.parser := snd r;
                  Beautifier._level := Beautifier._level b;
                  Beautifier._width := Beautifier._width b;
                  Beautifier._result := Beautifier._result b;
                  Beautifier._wrapper := Beautifier._wrapper b |} in
      let color_func :=
        if negb (mem (u "-C") argv) then color_types (attr_type attribs)
        else color_types None in
      let result_line := fst (Beautifier.build b) in
      result <- format_loop color level rest ;;
      ret (match result_line with
           | [] => result
           | _ :: _ =>
               (if color then color_func result_line else result_line)
                 :: result
           end)
  end.

(** [format(output, color, level)] *)
Definition format (output : text) (color : bool) (level : Z) : result text :=
  result <- format_loop color level (splitlines output) ;;
  ret (join linesep result).

End Format.

End Formatter.

(** * Properties *)

Import Parser.
Import Beautifier.

(** ** Definitions for the statements *)

(** Splits a conjunction into its parts. *)
Ltac split_all := repeat match goal with |- _ /\ _ => split end.

(** Settles an equation between closed terms by evaluation. *)
Ltac by_eval := vm_compute; reflexivity.

(** [parse_line] on a new instance built from the line, as the formatter
    calls it. *)
Definition classify_fresh (line : text) : result attributes :=
  r <- Parser.parse_line (Parser.__init__ line) [] ;; ret (fst r).

Definition codes_raw (a : attributes) : list text :=
  map code_raw (msg_codelist (attr_message a)).

(** The line of scenario 1 with the typographic quotes g++ prints. *)
Definition scenario1_quoted : text :=
  u "foo.cpp:10:5: error: " ++ [Re.lquote] ++ u "x" ++ [Re.rquote]
    ++ u " was not declared in this scope".

(** A column is recorded only with a line number and the type error. *)
Definition column_ok (a : attributes) : Prop :=
  attr_column a <> (-1)%Z ->
  attr_line a <> (-1)%Z /\ attr_type a = Some LT_ERROR.

(** Splits an equation [c = inl _] along the binds and tests of [c]. *)
Ltac step_result :=
  match goal with
  | H : bind ?c _ = inl _ |- _ =>
      let E := fresh "E" in
      destruct c eqn:E; cbn [bind] in H; [|discriminate H]
  | H : (if ?b then _ else _) = inl _ |- _ =>
      let E := fresh "E" in destruct b eqn:E
  | H : ret _ = inl _ |- _ => injection H as H; subst
  | H : inl _ = inl _ |- _ => injection H as H; subst
  | H : raise _ = inl _ |- _ => discriminate H
  | H : inr _ = inl _ |- _ => discriminate H
  end.

(** No pattern of [_str_types], instantiated with a character type, stands
    in [g]: [_compact_typedefs] has nothing to replace. *)
Definition typedefs_settled (g : text) : bool :=
  forallb (fun entry : text * text =>
             forallb (fun c =>
                        negb (contains (replace (u "%s") c (fst entry)) g))
               _char_types)
    _str_types.

(** For every container of [_replacements], [g] does not hold the name, or
    no argument is read after it, or none of the long forms instantiated
    with that argument stands in [g]: [_parse_templates] has nothing to
    replace. *)
Definition templates_settled (g : text) : bool :=
  forallb (fun entry : text * list (text * text) =>
             match find (fst entry) g with
             | Some pos =>
                 match _next_token g (pos + List.length (fst entry) + 1) with
                 | Some ((_ :: _) as tp) =>
                     forallb (fun fs : text * text =>
                                negb (contains
                                        (replace (u "%s") tp (fst fs)) g))
                       (snd entry)
                 | _ => true
                 end
             | None => true
             end)
    _replacements.

(** Nothing is left in [g] for the rewrites of level Normal: no with
    clause, no whitespace at either end, no [> >], no [std::], no
    [__gnu_cxx::], no instantiated typedef, no long form of a container. *)
Definition settled_normal (g : text) : bool :=
  match Re.search_with g with Some _ => false | None => true end
  && eqb (strip g) g
  && negb (contains (u "> >") g)
  && negb (contains (u "std::") g)
  && negb (contains (u "__gnu_cxx::") g)
  && typedefs_settled g
  && templates_settled g.

(** Nothing is left in [g] for the rewrites of [level]; from level Moderate
    on, no [boost::] either. *)
Definition settled (level : Z) (g : text) : bool :=
  (if (LV_NORMAL <=? level)%Z then settled_normal g else true)
  && (if (LV_MODERATE <=? level)%Z then negb (contains (u "boost::") g)
      else true).



Definition codelist (b : Beautifier.t) : list code :=
  msg_codelist (attr_message (Parser._attributes (parser b))).

(** The line of scenario 4. *)
Definition scenario4 : text :=
  u "/usr/include/c++/4.4/bits/stl_vector.h:733: note: candidates are: void push_back(const int&)".

(** The instance of the formatter after [parse_line] on a system-header
    error line with text after [error: ]. *)
Definition system_error_instance : Beautifier.t :=
  let line := u "/usr/include/x.h:5: error: bad" in
  {| parser :=
       match Beautifier.parse_line (Parser.__init__ line) [] with
       | inl r => snd r
       | inr _ => Parser.__init__ line
       end;
     _level := LV_HIGH; _width := 72; _result := line; _wrapper := None |}.

(** The three prefixes of the last test of [build]. *)
Definition suppressed_prefixes : list text :=
  [u "from"; u "note: previous definition"; u "In file included from"].

(** The instance of the formatter after [parse_line] on an error line of a
    user file. *)
Definition user_error_instance : Beautifier.t :=
  let line := u "a.cpp:3: error: bad" in
  {| parser :=
       match Beautifier.parse_line (Parser.__init__ line) [] with
       | inl r => snd r
       | inr _ => Parser.__init__ line
       end;
     _level := LV_MODERATE; _width := 72; _result := line;
     _wrapper := None |}.

(** [code["formatted"]] once a turn of the loop of [build] is over, at level
    Moderate and above. *)
Definition formatted_at_moderate (c : code) : text :=
  rewrite_moderate
    (rewrite_normal c (match code_formatted c with
                       | Some f => f
                       | None => code_raw c
                       end)).

(** The line as the test for [error: ] reads it at each turn of the loop of
    [build], when no earlier turn has returned: the system locations are
    stripped, the code fragments of the earlier turns are replaced by their
    formatted text. *)
Fixpoint tested (result : text) (codes : list code) {struct codes}
  : list text :=
  match codes with
  | [] => []
  | c :: rest =>
      let stripped := Re.sub_sys_file result in
      stripped
      :: tested (replace (code_raw c) (formatted_at_moderate c) stripped) rest
  end.

(** The line after all the turns. *)
Fixpoint rewritten (result : text) (codes : list code) {struct codes}
  : text :=
  match codes with
  | [] => result
  | c :: rest =>
      rewritten (replace (code_raw c) (formatted_at_moderate c)
                   (Re.sub_sys_file result)) rest
  end.

(** The text [build] has to show when no turn returns: the line after all
    the turns, trimmed, and wrapped when there is a wrapper. *)
Definition shown (b : Beautifier.t) : text :=
  let result := strip (rewritten (_result b) (codelist b)) in
  match _wrapper b with
  | Some fill => fill result
  | None => result
  end.

(** At some turn the line, as the test reads it, starts with [error: ]. *)
Definition error_met (b : Beautifier.t) : bool :=
  existsb (startswith (u "error: ")) (tested (_result b) (codelist b)).

(** The text starts with one of the three prefixes. *)
Definition redundant (s : text) : bool :=
  existsb (fun prefix => startswith prefix s) suppressed_prefixes.

(** The contract of the tokenizer in the words of the specification,
    written without the definitions of the class: the characters are named
    here, the counters are counts of characters, the trimming is defined on
    its own. *)
Module TokenizerSpec.

(** The two delimiters. *)
Definition comma : char := N_of_ascii ",".
Definition equals_sign : char := N_of_ascii "=".

(** The four opening characters, each with its matching close. *)
Definition pairs : list (char * char) :=
  [ (N_of_ascii "<", N_of_ascii ">");
    (N_of_ascii "[", N_of_ascii "]");
    (N_of_ascii "{", N_of_ascii "}");
    (N_of_ascii "(", N_of_ascii ")") ].

(** How many times [c] stands in [p]. *)
Fixpoint occurrences (c : char) (p : text) : Z :=
  match p with
  | [] => 0
  | d :: p' => ((if N.eqb d c then 1 else 0) + occurrences c p')%Z
  end.

(** The counter of a pair after the characters of [p]: one up for each
    opening character, one down for each matching close. *)
Definition counter (pair : char * char) (p : text) : Z :=
  (occurrences (fst pair) p - occurrences (snd pair) p)%Z.

Definition all_counters_zero (p : text) : bool :=
  forallb (fun pair => Z.eqb (counter pair p) 0) pairs.

(** At offset [j] of [s] stands a [,] or a [=] and all counters are zero. *)
Definition ends_token (s : text) (j : nat) : bool :=
  match nth_error s j with
  | Some c =>
      (N.eqb c comma || N.eqb c equals_sign)
      && all_counters_zero (firstn j s)
  | None => false
  end.

(** At offset [j] of [s] stands a closing character whose counter would go
    negative. *)
Definition goes_negative (s : text) (j : nat) : bool :=
  match nth_error s j with
  | Some c =>
      existsb (fun pair => N.eqb c (snd pair)
                           && (counter pair (firstn j s) - 1 <? 0)%Z) pairs
  | None => false
  end.

(** The first offset at which the scan of [s] stops. *)
Definition first_stop (s : text) : option nat :=
  List.find (fun j => ends_token s j || goes_negative s j)
    (seq 0 (List.length s)).

(** The whitespace of a unicode string, character by character. *)
Definition whitespace : list char :=
  [9; 10; 11; 12; 13; 28; 29; 30; 31; 32; 133; 160; 5760; 6158;
   8192; 8193; 8194; 8195; 8196; 8197; 8198; 8199; 8200; 8201; 8202;
   8232; 8233; 8239; 8287; 12288]%N.

Definition white (c : char) : bool := existsb (N.eqb c) whitespace.

(** Without the whitespace at the start. *)
Fixpoint trim_left (s : text) : text :=
  match s with
  | [] => []
  | c :: s' => if white c then trim_left s' else s
  end.

(** Without the whitespace at the end. *)
Fixpoint trim_right (s : text) : text :=
  match s with
  | [] => []
  | c :: s' =>
      match trim_right s' with
      | [] => if white c then [] else [c]
      | t => c :: t
      end
  end.

Definition trim (s : text) : text := trim_right (trim_left s).

(** The token the contract describes: the trimmed text before the first
    delimiter met at depth zero; no token when a counter would go negative
    first, or when the end is reached. *)
Definition next_token (line : text) (begin : nat) : option text :=
  let s := skipn begin line in
  match first_stop s with
  | Some j => if ends_token s j then Some (trim (firstn j s)) else None
  | None => None
  end.

End TokenizerSpec.

(** The dictionary [depth] of [_next_token] holds the counters of the
    contract for the text [p] read so far. *)
Definition agrees (d : depth) (p : text) : Prop :=
  d_angle d = TokenizerSpec.counter (N_of_ascii "<", N_of_ascii ">") p
  /\ d_square d = TokenizerSpec.counter (N_of_ascii "[", N_of_ascii "]") p
  /\ d_brace d = TokenizerSpec.counter (N_of_ascii "{", N_of_ascii "}") p
  /\ d_paren d = TokenizerSpec.counter (N_of_ascii "(", N_of_ascii ")") p.

(** ** Definitions for the further properties *)

(** A number field is absent (-1) or not negative. *)
Definition number_ok (n : Z) : Prop := n = (-1)%Z \/ (0 <= n)%Z.

(** Neither a colon nor a comma. *)
Definition plain_char (c : char) : bool :=
  negb (ischar ":" c) && negb (ischar "," c).

(** The line [parse_line(line)] reads on the instance [self]. *)
Definition line_read (self : Parser.t) (line : text) : text :=
  match line with
  | [] => Parser._line self
  | _ :: _ => line
  end.

(** A code fragment, a message, a record and an instance without the key
    ["with_tokens"] that the beautifier adds. *)
Definition erase_code (c : code) : code :=
  {| code_raw := code_raw c; code_with_tokens := None;
     code_formatted := code_formatted c |}.

Definition erase_message (m : message) : message :=
  {| msg_raw := msg_raw m; msg_codelist := map erase_code (msg_codelist m) |}.

Definition erase (a : attributes) : attributes :=
  set_message a (erase_message (attr_message a)).

Definition erase_instance (p : Parser.t) : Parser.t :=
  {| _line := _line p; _attributes := erase (_attributes p) |}.

Definition not_equals (c : char) : bool := negb (ischar "=" c).

(** Stripped, without [=]. *)
Definition clean_token (x : text) : Prop :=
  strip x = x /\ forallb not_equals x = true.

(** What [build] leaves of a record: all but the code list. *)
Definition same_but_codes (a a' : attributes) : Prop :=
  attr_raw a' = attr_raw a /\ attr_type a' = attr_type a
  /\ attr_file a' = attr_file a /\ attr_line a' = attr_line a
  /\ attr_column a' = attr_column a /\ attr_sys_file a' = attr_sys_file a
  /\ msg_raw (attr_message a') = msg_raw (attr_message a).

(** The location that starts a line of a system header: the path under
    [/usr/include/], the line number, a colon and a blank. *)
Definition system_location (name digits : text) : text :=
  u "/usr/include/" ++ name ++ u ":" ++ digits ++ u ": ".

(** [parse_line] of a new beautifier returns on the line. *)
Definition parses (line : text) : Prop :=
  exists r, Beautifier.parse_line (Parser.__init__ line) [] = ret r.

(** Not the empty text. *)
Definition nonempty (s : text) : bool :=
  match s with
  | [] => false
  | _ :: _ => true
  end.

Definition sample_output : text :=
  u "a.cpp: In function f" ++ [10%N; 10%N] ++ u "  a.cpp:3: error: x"
    ++ [10%N].

(** A segment that [int] converts when the pattern of numbers matches it:
    it does not start with a digit, or it is made of digits. *)
Definition numeral_or_text (s : text) : bool :=
  negb (Re.match_number s) || forallb isdigit s.

(** The segments of a line, as [parse_line] classifies them. *)
Definition segments_of (line : text) : list text :=
  match map strip (Re.split_sep (strip line)) with
  | s0 :: (_ :: _) as rest => normalize_first s0 :: rest
  | segments => segments
  end.

(** ** The model on the round-trip scenarios *)

Example scenario2_compacted :
  beautify LV_NORMAL (u "vector<int, allocator<int>>") = ret (u "vector<int>").
Proof. by_eval. Qed.

Example scenario6_compacted :
  beautify LV_NORMAL
    (u "basic_string<char, char_traits<char>, allocator<char>>")
  = ret (u "string")
  /\ beautify LV_NORMAL
       (u "basic_string<wchar_t, char_traits<wchar_t>, allocator<wchar_t>>")
     = ret (u "wstring").
Proof. split; by_eval. Qed.

Example next_token_first_argument :
  _next_token (u "vector<int, allocator<int>>") 7 = Some (u "int")
  /\ _next_token (u "a<b, c> = d") 0 = Some (u "a<b, c>")
  /\ _next_token (u "int>") 0 = None
  /\ _next_token (u "int") 0 = None.
Proof. split_all; by_eval. Qed.

Example split_keeps_scope_operator :
  Re.split_sep (u "a.h:3: note: std::x,")
  = [u "a.h"; u "3"; u " note"; u " std::x"; []].
Proof. by_eval. Qed.

(** ** The classifier on concrete lines *)

(** C1 (code bug). Classification is not total: on [foo.c:10] the test
    [segments[2] == "warning"] indexes a list of two segments, on
    [error:1:x] the test [segments[3] == "error"] indexes a list of three,
    and on [ld: 32-bit mode not supported] the segment matched by the
    unanchored pattern [[0-9]+] is given to [int]: [parse_line] raises
    [IndexError], [IndexError] and [ValueError] where the claim promises a
    record.  The empty string does get a record. *)
Theorem parse_line_raises :
  classify_fresh (u "foo.c:10") = raise IndexError
  /\ classify_fresh (u "error:1:x") = raise IndexError
  /\ classify_fresh (u "ld: 32-bit mode not supported") = raise ValueError
  /\ (exists a, classify_fresh [] = ret a).
Proof.
  split_all; try (vm_compute; reflexivity).
  eexists. vm_compute. reflexivity.
Qed.

(** C5 (code bug). For [collect2: ld returned 1 exit status] the branch of
    ["collect2"] assigns the type and nothing else: the record has type
    [LT_MESSAGE] and the message it was created with, whose raw text is empty
    and whose code list is empty, not the remaining segments joined.  The
    same holds whatever follows the segment [collect2]: the branch leaves
    the message as it was. *)
Theorem collect2_message_left_empty :
  (exists a,
      classify_fresh (u "collect2: ld returned 1 exit status") = ret a
      /\ attr_type a = Some LT_MESSAGE
      /\ attr_message a = {| msg_raw := []; msg_codelist := [] |}
      /\ msg_raw (attr_message a) <> u "ld returned 1 exit status")
  /\ (forall (a : attributes) (rest : list text),
         classify (fun segments => ret (Parser._parse_message segments)) a
           (u "collect2" :: rest)
         = ret (set_type a LT_MESSAGE)
         /\ attr_message (set_type a LT_MESSAGE) = attr_message a).
Proof.
  split.
  - eexists. split; [by_eval|].
    split_all; try reflexivity. vm_compute. discriminate.
  - intros a rest. split; reflexivity.
Qed.

(** C6, as stated, fails: with ASCII apostrophes around [x] the code pattern,
    which wants U+2018 and U+2019, finds nothing, and the one code fragment
    is the whole message, not [x]. *)
Lemma scenario1_ascii_fragment :
  exists a,
    classify_fresh
      (u "foo.cpp:10:5: error: 'x' was not declared in this scope") = ret a
    /\ codes_raw a = [u "'x' was not declared in this scope"]
    /\ codes_raw a <> [u "x"].
Proof.
  eexists. split; [vm_compute; reflexivity|].
  split; [reflexivity | vm_compute; discriminate].
Qed.

(** C6 (amended). The line [foo.cpp:10:5: error: 'x' was not declared in
    this scope] written with the quotes U+2018 and U+2019 is classified as
    an error in file [foo.cpp], line 10, column 5; the raw message is the
    text after [error: ], quotes included, and the code list has exactly one
    fragment, [x]. *)
Theorem scenario1_classified :
  exists a,
    classify_fresh scenario1_quoted = ret a
    /\ attr_type a = Some LT_ERROR
    /\ attr_file a = u "foo.cpp"
    /\ attr_line a = 10%Z
    /\ attr_column a = 5%Z
    /\ msg_raw (attr_message a)
       = [Re.lquote] ++ u "x" ++ [Re.rquote]
           ++ u " was not declared in this scope"
    /\ codes_raw a = [u "x"].
Proof.
  eexists. split; [vm_compute; reflexivity|].
  split_all; reflexivity.
Qed.

(** C8 (code bug). An instance keeps [self._attributes] from one call to the
    next, and [parse_line] assigns only the keys of the branch it takes.
    After [foo.cpp:10:5: error: x], the line [hello] is returned with line 10
    and column 5 and the file flag of the first line; a new instance returns
    it with -1, -1 and no flag.  The class documentation says the two uses
    give identical results. *)
Theorem reused_instance_keeps_fields :
  exists p1 a1 a2 p2 a,
    Parser.parse_line (Parser.__init__ []) (u "foo.cpp:10:5: error: x")
      = ret (a1, p1)
    /\ Parser.parse_line p1 (u "hello") = ret (a2, p2)
    /\ Parser.parse_line (Parser.__init__ []) (u "hello")
       = ret (a, {| _line := u "hello"; _attributes := a |})
    /\ attr_line a2 = 10%Z /\ attr_column a2 = 5%Z
    /\ attr_sys_file a2 = Some false
    /\ attr_line a = (-1)%Z /\ attr_column a = (-1)%Z
    /\ attr_sys_file a = None
    /\ a2 <> a.
Proof.
  do 5 eexists.
  split; [vm_compute; reflexivity|].
  split; [vm_compute; reflexivity|].
  split; [vm_compute; reflexivity|].
  split_all; try reflexivity.
  vm_compute. discriminate.
Qed.

(** ** The beautifier on concrete fragments *)

(** C2 (code bug). At level Normal the fragment [Type<T> [with T = int]]
    becomes [intype<int>], not [Type<int>]: the pair found is [(T, int)],
    and replacing every [T] also rewrites the [T] of [Type] (and the one
    inside the clause, which is then deleted).  The whole line through the
    formatter gives the same text.  The module documentation gives
    [Type<int>] for this very input. *)
Theorem with_clause_clobbers_type_name :
  Beautifier._parse_with_stmts (u "Type<T> [with T = int]")
    = ret [(u "T", u "int")]
  /\ Beautifier.beautify Beautifier.LV_NORMAL (u "Type<T> [with T = int]")
     = ret (u "intype<int>")
  /\ Beautifier.process_line Beautifier.LV_NORMAL None
       (u "Type<T> [with T = int]") = ret (u "intype<int>")
  /\ u "intype<int>" <> u "Type<int>".
Proof.
  split_all; try (vm_compute; reflexivity).
  vm_compute. discriminate.
Qed.

(** C3 (code bug). An entry of the with clause that does not hold exactly
    one [=] is not skipped: at the comma that ends it, at depth zero, the
    unpacking of the split raises [ValueError], whatever was collected before
    and whatever follows.  So [Type<T, U> [with T = int, U]] and
    [Type<T, U> [with T = int; U = char]] raise, and the exception leaves
    [parse_line] too: the whole line is lost. *)
Theorem malformed_with_entry_raises :
  (forall (stmt : text) (d : depth) (begin i : nat)
          (tokens : list (text * text)) (rest : text),
      all_zero d = true ->
      List.length (split (u "=") (slice stmt begin i)) <> 2 ->
      with_stmts_loop stmt d begin i tokens (ch "," :: rest)
      = raise ValueError)
  /\ _parse_with_stmts (u "Type<T, U> [with T = int, U]") = raise ValueError
  /\ _parse_with_stmts (u "Type<T, U> [with T = int; U = char]")
     = raise ValueError
  /\ Beautifier.parse_line (Parser.__init__ (u "Type<T, U> [with T = int, U]"))
       [] = raise ValueError
  /\ _parse_with_stmts (u "Type<T, U> [with T = int, U = char]")
     = ret [(u "T", u "int"); (u "U", u "char")].
Proof.
  split.
  - intros stmt d begin i tokens rest Hd Hn.
    cbn [with_stmts_loop]. change (ischar "," (ch ",")) with true.
    rewrite Hd. cbn [andb].
    destruct (split (u "=") (slice stmt begin i)) as [|k [|v [|x l]]];
      try reflexivity.
    simpl in Hn. congruence.
  - split_all; by_eval.
Qed.

(** The entry [U] of [T = int, U], met with the pair of [T] collected. *)
Lemma malformed_with_entry_raises_witness :
  all_zero depth0 = true
  /\ List.length (split (u "=") (slice (u "T = int, U") 8 10)) = 1
  /\ with_stmts_loop (u "T = int, U") depth0 8 10 [(u "T", u "int")]
       (ch "," :: [])
     = raise ValueError.
Proof.
  split; [reflexivity|]. split; [reflexivity|].
  apply (proj1 malformed_with_entry_raises).
  - reflexivity.
  - vm_compute. discriminate.
Defined.

(** ** The balanced-delimiter tokenizer *)

Lemma opener_not_closer (c : char) (b : bracket) :
  opener c = Some b -> closer c = None.
Proof.
  unfold opener, closer, ischar.
  destruct (N.eqb_spec c (ch "<")) as [->|_]; [reflexivity|].
  destruct (N.eqb_spec c (ch "[")) as [->|_]; [reflexivity|].
  destruct (N.eqb_spec c (ch "{")) as [->|_]; [reflexivity|].
  destruct (N.eqb_spec c (ch "(")) as [->|_]; [reflexivity|].
  discriminate.
Qed.

Lemma get_add_same (d : depth) (b : bracket) (n : Z) :
  get (add d b n) b = (get d b + n)%Z.
Proof. destruct b; reflexivity. Qed.

Lemma firstn_prefix (p rest : text) : firstn (List.length p) (p ++ rest) = p.
Proof.
  rewrite firstn_app, Nat.sub_diag, firstn_all. simpl. apply app_nil_r.
Qed.

Lemma nth_error_middle (p rest : text) (c : char) :
  nth_error (p ++ c :: rest) (List.length p) = Some c.
Proof.
  rewrite nth_error_app2 by lia. rewrite Nat.sub_diag. reflexivity.
Qed.

Lemma slice_offset (line : text) (begin i : nat) :
  slice line begin (begin + i) = firstn i (skipn begin line).
Proof. unfold slice. f_equal. lia. Qed.

Lemma next_token_loop_offset (line : text) (begin : nat) (rest : text) :
  forall d i,
    next_token_loop line begin d i rest
    = next_token_loop (skipn begin line) 0 d i rest.
Proof.
  induction rest as [|c rest IH]; intros d i; [reflexivity|].
  cbn [next_token_loop].
  rewrite slice_offset, (slice_offset (skipn begin line) 0 i).
  cbn [skipn].
  destruct (is_delim c && all_zero d); [reflexivity|].
  destruct (opener c); [apply IH|].
  destruct (closer c); [|apply IH].
  cbv zeta. destruct (get _ _ <? 0)%Z; [reflexivity | apply IH].
Qed.

Lemma isspace_white (c : char) : isspace c = TokenizerSpec.white c.
Proof.
  apply eq_true_iff_eq.
  unfold isspace, TokenizerSpec.white, TokenizerSpec.whitespace, in_range.
  cbn [existsb].
  rewrite !orb_true_iff, !andb_true_iff, !N.leb_le, !N.eqb_eq.
  lia.
Qed.

Lemma dropwhile_trim_left (s : text) :
  dropwhile isspace s = TokenizerSpec.trim_left s.
Proof.
  induction s as [|c s IH]; [reflexivity|].
  cbn [dropwhile TokenizerSpec.trim_left].
  rewrite isspace_white, IH. reflexivity.
Qed.

Lemma dropwhile_last (p : char -> bool) (s : text) (c : char) :
  dropwhile p (s ++ [c])
  = match dropwhile p s with
    | [] => if p c then [] else [c]
    | t => t ++ [c]
    end.
Proof.
  induction s as [|d s IH]; [reflexivity|].
  cbn [app dropwhile]. destruct (p d); [exact IH|reflexivity].
Qed.

Lemma rstrip_trim_right (s : text) : rstrip s = TokenizerSpec.trim_right s.
Proof.
  unfold rstrip.
  induction s as [|c s IH]; [reflexivity|].
  cbn [rev TokenizerSpec.trim_right].
  rewrite dropwhile_last, <- IH, isspace_white.
  destruct (dropwhile isspace (rev s)) as [|d t].
  - cbn [rev]. destruct (TokenizerSpec.white c); reflexivity.
  - rewrite rev_app_distr. cbn [rev app].
    destruct (rev t ++ [d]) eqn:E; [destruct (rev t); discriminate E|].
    reflexivity.
Qed.

(** [strip] removes the whitespace the contract lists, at both ends. *)
Lemma strip_trim (s : text) : strip s = TokenizerSpec.trim s.
Proof.
  unfold strip, TokenizerSpec.trim, lstrip.
  rewrite rstrip_trim_right, dropwhile_trim_left. reflexivity.
Qed.

Lemma occurrences_snoc (c d : char) (p : text) :
  TokenizerSpec.occurrences c (p ++ [d])
  = (TokenizerSpec.occurrences c p + (if N.eqb d c then 1 else 0))%Z.
Proof.
  induction p as [|e p IH]; cbn [app TokenizerSpec.occurrences]; [lia|].
  rewrite IH. lia.
Qed.

Lemma counter_snoc (pair : char * char) (d : char) (p : text) :
  TokenizerSpec.counter pair (p ++ [d])
  = (TokenizerSpec.counter pair p
     + (if N.eqb d (fst pair) then 1 else 0)
     - (if N.eqb d (snd pair) then 1 else 0))%Z.
Proof. unfold TokenizerSpec.counter. rewrite !occurrences_snoc. lia. Qed.

Lemma all_zero_agrees (d : depth) (p : text) :
  agrees d p ->
  all_zero d = TokenizerSpec.all_counters_zero p.
Proof.
  intros (Ha & Hs & Hb & Hp).
  unfold all_zero, TokenizerSpec.all_counters_zero, TokenizerSpec.pairs.
  cbn [forallb]. rewrite Ha, Hs, Hb, Hp, andb_true_r, !andb_assoc.
  reflexivity.
Qed.

(** What the loop does to [depth] on a character keeps it in step with the
    counts of the characters read. *)
Lemma agrees_step (d : depth) (p : text) (c : char) :
  agrees d p ->
  agrees
    (match opener c with
     | Some b => add d b 1
     | None => match closer c with
               | Some b => add d b (-1)
               | None => d
               end
     end) (p ++ [c]).
Proof.
  intros (Ha & Hs & Hb & Hp).
  unfold agrees. rewrite !counter_snoc. cbn [fst snd].
  rewrite <- Ha, <- Hs, <- Hb, <- Hp. clear Ha Hs Hb Hp.
  unfold opener, closer, ischar, ch.
  destruct (N.eqb_spec c (N_of_ascii "<")) as [->|N1];
    [cbn; repeat split; lia|].
  destruct (N.eqb_spec c (N_of_ascii "[")) as [->|N2];
    [cbn; repeat split; lia|].
  destruct (N.eqb_spec c (N_of_ascii "{")) as [->|N3];
    [cbn; repeat split; lia|].
  destruct (N.eqb_spec c (N_of_ascii "(")) as [->|N4];
    [cbn; repeat split; lia|].
  destruct (N.eqb_spec c (N_of_ascii ">")) as [->|N5];
    [cbn; repeat split; lia|].
  destruct (N.eqb_spec c (N_of_ascii "]")) as [->|N6];
    [cbn; repeat split; lia|].
  destruct (N.eqb_spec c (N_of_ascii "}")) as [->|N7];
    [cbn; repeat split; lia|].
  destruct (N.eqb_spec c (N_of_ascii ")")) as [->|N8];
    [cbn; repeat split; lia|].
  repeat split; lia.
Qed.

Lemma negative_agrees (d : depth) (p : text) (c : char) :
  agrees d p ->
  existsb (fun pair => N.eqb c (snd pair)
                       && (TokenizerSpec.counter pair p - 1 <? 0)%Z)
    TokenizerSpec.pairs
  = match closer c with
    | Some b => (get d b - 1 <? 0)%Z
    | None => false
    end.
Proof.
  intros (Ha & Hs & Hb & Hp).
  unfold TokenizerSpec.pairs, closer, ischar, ch. cbn [existsb fst snd].
  rewrite <- Ha, <- Hs, <- Hb, <- Hp.
  destruct (N.eqb_spec c (N_of_ascii ">")) as [->|N5];
    [cbn; rewrite orb_false_r; reflexivity|].
  destruct (N.eqb_spec c (N_of_ascii "]")) as [->|N6];
    [cbn; rewrite orb_false_r; reflexivity|].
  destruct (N.eqb_spec c (N_of_ascii "}")) as [->|N7];
    [cbn; rewrite orb_false_r; reflexivity|].
  destruct (N.eqb_spec c (N_of_ascii ")")) as [->|N8];
    [cbn; rewrite orb_false_r; reflexivity|].
  reflexivity.
Qed.

Lemma ends_token_at (s p rest : text) (c : char) (d : depth) :
  s = p ++ c :: rest ->
  agrees d p ->
  TokenizerSpec.ends_token s (List.length p) = is_delim c && all_zero d.
Proof.
  intros -> Hd. unfold TokenizerSpec.ends_token.
  rewrite nth_error_middle, firstn_prefix, (all_zero_agrees d p Hd).
  reflexivity.
Qed.

Lemma goes_negative_at (s p rest : text) (c : char) (d : depth) :
  s = p ++ c :: rest ->
  agrees d p ->
  TokenizerSpec.goes_negative s (List.length p)
  = match closer c with
    | Some b => (get d b - 1 <? 0)%Z
    | None => false
    end.
Proof.
  intros -> Hd. unfold TokenizerSpec.goes_negative.
  rewrite nth_error_middle, firstn_prefix. exact (negative_agrees d p c Hd).
Qed.

(** The loop, started after the prefix [p] of [s = line[begin:]] with a
    dictionary that holds the counters of [p], returns what the contract
    gives for the offsets from the length of [p] on. *)
Lemma next_token_loop_spec (line : text) (begin : nat) (s rest : text) :
  s = skipn begin line ->
  forall (p : text) (d : depth),
    s = p ++ rest ->
    agrees d p ->
    next_token_loop line begin d (List.length p) rest
    = match List.find
              (fun j => TokenizerSpec.ends_token s j
                        || TokenizerSpec.goes_negative s j)
              (seq (List.length p) (List.length rest)) with
      | Some j =>
          if TokenizerSpec.ends_token s j
          then Some (TokenizerSpec.trim (firstn j s))
          else None
      | None => None
      end.
Proof.
  intros Hline.
  induction rest as [|c rest IH]; intros p d Hs Hd; [reflexivity|].
  cbn [next_token_loop List.length seq List.find].
  rewrite (ends_token_at _ _ _ _ _ Hs Hd), (goes_negative_at _ _ _ _ _ Hs Hd).
  assert (Hnext : s = (p ++ [c]) ++ rest)
    by (rewrite <- app_assoc; exact Hs).
  pose proof (agrees_step d p c Hd) as Hd'.
  specialize (IH (p ++ [c]) _ Hnext Hd').
  rewrite length_app, Nat.add_1_r in IH.
  destruct (is_delim c && all_zero d) eqn:Hdelim.
  - cbn [orb]. rewrite (ends_token_at _ _ _ _ _ Hs Hd), Hdelim.
    rewrite slice_offset, <- Hline, strip_trim. reflexivity.
  - cbn [orb].
    destruct (opener c) as [b|] eqn:Ho.
    + rewrite (opener_not_closer c b Ho). exact IH.
    + destruct (closer c) as [b|] eqn:Hc; [|exact IH].
      rewrite get_add_same.
      replace (get d b + -1)%Z with (get d b - 1)%Z by lia.
      destruct (get d b - 1 <? 0)%Z eqn:Hneg.
      * rewrite (ends_token_at _ _ _ _ _ Hs Hd), Hdelim. reflexivity.
      * exact IH.
Qed.

(** The contract on three texts: a first template argument, a close that
    comes too early, and a text without delimiter. *)
Example contract_on_samples :
  TokenizerSpec.next_token (u "map< pair<int, char> , long>") 4
  = Some (u "pair<int, char>")
  /\ TokenizerSpec.next_token (u "int> x, y") 0 = None
  /\ TokenizerSpec.next_token (u "vector<int>") 0 = None.
Proof. split_all; by_eval. Qed.

(** C9. For every string and every start offset, [_next_token] returns what
    the contract describes.  The contract is written on its own: the
    counter of each of [<], [[], [{], [(] is the number of times the
    character stands in the text read minus the number of times its matching
    close [>], []], [}], [)] does; the token is the text from the offset up
    to the first [,] or [=] met while the four counters are zero, without
    the whitespace at its two ends; there is no token when a closing
    character would take its counter below zero before that, and no token
    when the end of the string is reached without such a delimiter. *)
Theorem next_token_contract (line : text) (begin : nat) :
  _next_token line begin = TokenizerSpec.next_token line begin.
Proof.
  unfold _next_token, TokenizerSpec.next_token, TokenizerSpec.first_stop.
  apply (next_token_loop_spec line begin (skipn begin line) (skipn begin line)
           eq_refl [] depth0 eq_refl).
  repeat split.
Qed.

(** ** The fields of a classified line *)

Lemma digits_value_nonneg (s : text) :
  forall acc n, (0 <= acc)%Z -> digits_value acc s = Some n -> (0 <= n)%Z.
Proof.
  induction s as [|c s IH]; simpl; intros acc n Hacc H.
  - injection H as <-. exact Hacc.
  - destruct (isdigit c); [|discriminate].
    pose proof (N2Z.is_nonneg (c - 48)) as Hc.
    apply (IH (10 * acc + Z.of_N (c - 48))%Z n); [lia | exact H].
Qed.

Lemma int_nonneg (s : text) (n : Z) : int s = ret n -> (0 <= n)%Z.
Proof.
  unfold int. destruct s as [|c s]; [discriminate|].
  destruct (digits_value 0 (c :: s)) as [m|] eqn:Hd; [|discriminate].
  intros H. injection H as <-.
  exact (digits_value_nonneg _ _ _ (Z.le_refl 0) Hd).
Qed.

Section ClassifierInvariant.

Variable parse_message : list text -> result message.

Lemma classify_numbered_column (a a' : attributes) (segments : list text) :
  attr_column a = (-1)%Z ->
  classify_numbered parse_message a segments = ret a' ->
  column_ok a'.
Proof.
  unfold classify_numbered, column_ok, ret, raise. intros Hcol H.
  repeat step_result; cbn; try (intros Hc; contradiction).
  intros _. split; [|reflexivity].
  match goal with
  | E : int _ = inl ?n |- ?n <> _ => apply int_nonneg in E; lia
  end.
Qed.

Lemma classify_column (a a' : attributes) (segments : list text) :
  attr_column a = (-1)%Z ->
  classify parse_message a segments = ret a' ->
  column_ok a'.
Proof.
  unfold classify, ret, raise. intros Hcol H.
  repeat step_result;
    try (unfold column_ok; cbn; intros Hc; contradiction).
  eapply classify_numbered_column; [|exact H]. exact Hcol.
Qed.

Lemma parse_line_with_column (l0 line : text) (a : attributes) (p : Parser.t) :
  parse_line_with parse_message (Parser.__init__ l0) line = ret (a, p) ->
  column_ok a.
Proof.
  unfold parse_line_with, ret, raise. intros H.
  step_result. step_result.
  destruct (map strip _) as [|s0 [|s1 rest]].
  - step_result. unfold column_ok. cbn. intros Hc. contradiction.
  - repeat step_result. unfold column_ok. cbn. intros Hc. contradiction.
  - eapply classify_column; [|exact E]. reflexivity.
Qed.

End ClassifierInvariant.

(** C10. For every line classified with a new instance, of the parser or of
    the beautifier, if the record returned has a column number (not -1),
    then it has a line number (not -1) and its type is error. *)
Theorem column_implies_line_and_error
    (l0 line : text) (a : attributes) (p : Parser.t) :
  Parser.parse_line (Parser.__init__ l0) line = ret (a, p)
  \/ Beautifier.parse_line (Parser.__init__ l0) line = ret (a, p) ->
  attr_column a <> (-1)%Z ->
  attr_line a <> (-1)%Z /\ attr_type a = Some LT_ERROR.
Proof.
  intros [H|H]; exact (parse_line_with_column _ _ _ _ _ H).
Qed.

Lemma column_implies_line_and_error_witness :
  exists a p,
    Parser.parse_line (Parser.__init__ []) (u "foo.cpp:10:5: error: x")
    = ret (a, p)
    /\ attr_column a = 5%Z
    /\ attr_line a <> (-1)%Z /\ attr_type a = Some LT_ERROR.
Proof.
  eexists. eexists.
  assert (H : Parser.parse_line (Parser.__init__ []) (u "foo.cpp:10:5: error: x")
              = ret (_, _)) by (vm_compute; reflexivity).
  split; [exact H|]. split; [reflexivity|].
  apply (column_implies_line_and_error [] (u "foo.cpp:10:5: error: x") _ _
           (or_introl H)).
  vm_compute. discriminate.
Defined.

(** ** Replacement and the collapse of [> >] *)

Lemma startswith_length (p s : text) :
  startswith p s = true -> List.length p <= List.length s.
Proof.
  revert s. induction p as [|a p IH]; intros s H; simpl; [lia|].
  destruct s as [|c s]; [discriminate|]. simpl in H.
  apply andb_true_iff in H as [_ H]. apply IH in H. simpl. lia.
Qed.

(** A replacement by a text that is not longer does not lengthen. *)
Lemma replace_scan_length (old new : text) :
  List.length new <= List.length old ->
  forall s skip,
    skip <= List.length s ->
    List.length (replace_scan old new skip s) + skip <= List.length s.
Proof.
  intros Hlen. induction s as [|c s IH]; intros skip Hskip; simpl in *.
  - lia.
  - destruct skip as [|k].
    + destruct (startswith old (c :: s)) eqn:Hp.
      * apply startswith_length in Hp. simpl in Hp.
        rewrite length_app.
        specialize (IH (pred (List.length old)) ltac:(lia)). lia.
      * specialize (IH 0 ltac:(lia)). simpl. lia.
    + specialize (IH k ltac:(lia)). lia.
Qed.






(** ** Rewrites that do not lengthen *)

Lemma length_dropwhile (p : char -> bool) (s : text) :
  List.length (dropwhile p s) <= List.length s.
Proof.
  induction s as [|c s IH]; simpl; [lia|]. destruct (p c); simpl; lia.
Qed.

Lemma length_strip (s : text) : List.length (strip s) <= List.length s.
Proof.
  unfold strip, rstrip, lstrip. rewrite length_rev.
  etransitivity; [apply length_dropwhile|]. rewrite length_rev.
  apply length_dropwhile.
Qed.

Lemma length_sub_with_scan (s : text) :
  forall skip, List.length (Re.sub_with_scan skip s) <= List.length s.
Proof.
  induction s as [|c s IH]; intros skip; simpl; [lia|].
  destruct skip as [|k].
  - destruct (Re.with_at (c :: s)) as [[g n]|].
    + specialize (IH (pred n)). lia.
    + specialize (IH 0). simpl. lia.
  - specialize (IH k). lia.
Qed.

(** A replacement of a text that is not empty by one that is not longer
    does not lengthen. *)
Lemma length_replace (old new s : text) :
  old <> [] -> List.length new <= List.length old ->
  List.length (replace old new s) <= List.length s.
Proof.
  intros Hne Hlen. destruct old as [|a old]; [contradiction|].
  unfold replace.
  pose proof (replace_scan_length (a :: old) new Hlen s 0 ltac:(lia)). lia.
Qed.

Lemma length_collapse_loop (fuel : nat) :
  forall s, List.length (collapse_loop fuel s) <= List.length s.
Proof.
  induction fuel as [|fuel IH]; intros s; cbn [collapse_loop]; [lia|].
  destruct (contains (u "> >") s); [|lia].
  etransitivity; [apply IH|].
  apply length_replace; [discriminate | simpl; lia].
Qed.

Lemma length_fold_left {A : Type} (f : text -> A -> text) (l : list A) :
  Forall (fun x => forall g, List.length (f g x) <= List.length g) l ->
  forall g, List.length (fold_left f l g) <= List.length g.
Proof.
  induction 1 as [|x l Hx _ IH]; intros g; simpl; [lia|].
  etransitivity; [apply IH | apply Hx].
Qed.

Lemma length_compact_typedefs (g : text) :
  List.length (_compact_typedefs g) <= List.length g.
Proof.
  unfold _compact_typedefs. revert g. apply length_fold_left.
  apply Forall_forall. intros entry Hentry g. revert g.
  apply length_fold_left. apply Forall_forall. intros c Hc g.
  destruct (contains _ g); [|lia].
  assert (Hall :
    forallb (fun entry : text * text =>
      forallb (fun c : text =>
        let tp := replace (u "%s") c (fst entry) in
        let r := match c with
                 | c0 :: _ => if ischar "w" c0 then u "w" ++ snd entry
                              else snd entry
                 | [] => snd entry
                 end in
        nonempty tp && (List.length r <=? List.length tp)) _char_types)
      _str_types = true) by (vm_compute; reflexivity).
  rewrite forallb_forall in Hall. specialize (Hall _ Hentry).
  rewrite forallb_forall in Hall. specialize (Hall _ Hc).
  cbv zeta in Hall. apply andb_true_iff in Hall as [Hne Hle].
  apply Nat.leb_le in Hle.
  apply length_replace; [|exact Hle].
  destruct (replace (u "%s") c (fst entry)); [discriminate Hne | discriminate].
Qed.

(** For every pair of [_replacements] and every argument, the short form is
    not longer than the full form, which is not empty. *)
Lemma replacements_shorten (tp : text) :
  Forall (fun entry : text * list (text * text) =>
            Forall (fun fs : text * text =>
                      replace (u "%s") tp (fst fs) <> []
                      /\ List.length (replace (u "%s") tp (snd fs))
                         <= List.length (replace (u "%s") tp (fst fs)))
              (snd entry)) _replacements.
Proof.
  unfold _replacements.
  repeat match goal with
         | |- Forall _ (_ :: _) => constructor; cbn [snd fst]
         | |- Forall _ [] => constructor
         end;
    (split; [vm_compute; discriminate|]);
    unfold u; simpl; rewrite ?length_app; simpl; rewrite ?length_app;
    simpl; lia.
Qed.

Lemma length_parse_templates (g : text) :
  List.length (_parse_templates g) <= List.length g.
Proof.
  unfold _parse_templates. revert g. apply length_fold_left.
  apply Forall_forall. intros entry Hentry g.
  destruct (find (fst entry) g) as [pos|]; [|lia].
  destruct (_next_token g _) as [[|c tp]|]; try lia.
  revert g. apply length_fold_left.
  pose proof (replacements_shorten (c :: tp)) as Hall.
  rewrite Forall_forall in Hall. specialize (Hall _ Hentry).
  eapply Forall_impl; [|exact Hall].
  intros fs [Hne Hle] g. apply length_replace; assumption.
Qed.

(** ** Settled text *)

Lemma eqb_eq (s t : text) : eqb s t = true -> s = t.
Proof.
  revert t. induction s as [|c s IH]; intros [|d t] H; try discriminate.
  - reflexivity.
  - simpl in H. apply andb_true_iff in H as [Hc Hs].
    apply N.eqb_eq in Hc. apply IH in Hs. congruence.
Qed.




Lemma find_absent (sub s : text) : contains sub s = false -> find sub s = None.
Proof.
  induction s as [|c s IH]; intros H.
  - simpl in *. apply orb_false_iff in H as [H _]. rewrite H. reflexivity.
  - cbn [contains] in H. apply orb_false_iff in H as [Hp Hs].
    cbn [find]. rewrite Hp, (IH Hs). reflexivity.
Qed.

Lemma strip_prefix_startswith (p s r : text) :
  Re.strip_prefix p s = Some r -> startswith p s = true.
Proof.
  revert s. induction p as [|a p IH]; intros s H; [reflexivity|].
  destruct s as [|c s]; [discriminate|]. simpl in *.
  destruct (N.eqb a c); [|discriminate]. exact (IH _ H).
Qed.

Lemma with_at_absent (s : text) :
  startswith (u "[with") s = false -> Re.with_at s = None.
Proof.
  intros H. unfold Re.with_at.
  destruct (Re.strip_prefix (u "[with") s) as [r|] eqn:Hr; [|reflexivity].
  apply strip_prefix_startswith in Hr. congruence.
Qed.

Lemma search_with_absent (s : text) :
  contains (u "[with") s = false -> Re.search_with s = None.
Proof.
  induction s as [|c s IH]; intros H.
  - reflexivity.
  - cbn [contains] in H. apply orb_false_iff in H as [Hp Hs].
    cbn [Re.search_with]. rewrite (with_at_absent _ Hp). exact (IH Hs).
Qed.

Lemma sub_with_absent (s : text) :
  contains (u "[with") s = false -> Re.sub_with s = s.
Proof.
  unfold Re.sub_with. induction s as [|c s IH]; intros H; [reflexivity|].
  cbn [contains] in H. apply orb_false_iff in H as [Hp Hs].
  cbn [Re.sub_with_scan]. rewrite (with_at_absent _ Hp), (IH Hs). reflexivity.
Qed.


























(** ** Idempotence *)


(** The text the first run leaves of [sstd::td::x] is not settled; the
    compacted vector is. *)
Example settled_on_samples :
  settled LV_NORMAL (u "std::x") = false
  /\ settled LV_NORMAL (u "vector<int>") = true
  /\ settled LV_ALL (u "basic_foo<char> [with") = true.
Proof. split_all; by_eval. Qed.



(** ** Suppression at level Moderate and above *)

(** The levels above Moderate do what Moderate does. *)
Lemma build_loop_above_moderate (level : Z) (codes : list code) :
  (LV_MODERATE <= level)%Z ->
  forall result,
    build_loop level result codes = build_loop LV_MODERATE result codes.
Proof.
  intros Hlevel. unfold LV_MODERATE in Hlevel.
  induction codes as [|c rest IH]; intros result; [reflexivity|].
  cbn [build_loop].
  replace (LV_NORMAL <=? level)%Z with true
    by (symmetry; apply Z.leb_le; unfold LV_NORMAL; lia).
  replace (LV_MODERATE <=? level)%Z with true
    by (symmetry; apply Z.leb_le; unfold LV_MODERATE; lia).
  change (LV_NORMAL <=? LV_MODERATE)%Z with true.
  change (LV_MODERATE <=? LV_MODERATE)%Z with true.
  cbv iota.
  destruct (startswith (u "error: ") (Re.sub_sys_file result));
    [reflexivity|].
  rewrite IH. reflexivity.
Qed.

Lemma process_line_above_moderate
    (level : Z) (fill : option (text -> text)) (line : text) :
  (LV_MODERATE <= level)%Z ->
  process_line level fill line = process_line LV_MODERATE fill line.
Proof.
  intros Hlevel. unfold process_line, __init__.
  cbn [_level parser _result _wrapper _width].
  destruct (Beautifier.parse_line _ _) as [r|e]; [|reflexivity].
  cbn [bind]. f_equal. unfold build. cbn [_level parser _result _wrapper].
  replace (level =? LV_NONE)%Z with false
    by (symmetry; apply Z.eqb_neq; unfold LV_MODERATE, LV_NONE in *; lia).
  change (LV_MODERATE =? LV_NONE)%Z with false. cbv iota.
  rewrite (build_loop_above_moderate level _ Hlevel).
  destruct (build_loop LV_MODERATE _ _) as [[stop result] codes].
  destruct stop; [reflexivity|].
  destruct (existsb _ _); reflexivity.
Qed.

(** C4, as stated, fails in both directions.  A line that reads
    [error: bad] once the system file is stripped is suppressed, although
    text follows [error: ]: the test is [startswith].  And the line
    [error: ] alone, which has no code fragment, never reaches the test and
    is returned as [error:]. *)
Lemma error_line_with_text_suppressed :
  Re.sub_sys_file (u "/usr/include/x.h:5: error: bad") = u "error: bad"
  /\ process_line LV_MODERATE None (u "/usr/include/x.h:5: error: bad")
     = ret []
  /\ u "error: bad" <> u "error: "
  /\ process_line LV_MODERATE None (u "error: ") = ret (u "error:").
Proof.
  split_all; try (vm_compute; reflexivity). vm_compute. discriminate.
Qed.

(** The loop of [build] returns at the first turn at which the line, as the
    test reads it, starts with [error: ]; when no turn returns, the line is
    the line after all the turns. *)
Lemma build_loop_moderate (level : Z) (codes : list code) :
  (LV_MODERATE <= level)%Z ->
  forall result,
    fst (fst (build_loop level result codes))
    = existsb (startswith (u "error: ")) (tested result codes)
    /\ (fst (fst (build_loop level result codes)) = false ->
        snd (fst (build_loop level result codes)) = rewritten result codes).
Proof.
  intros Hlevel. unfold LV_MODERATE in Hlevel.
  induction codes as [|c rest IH]; intros result;
    [split; reflexivity|].
  cbn [build_loop tested rewritten existsb].
  replace (LV_NORMAL <=? level)%Z with true
    by (symmetry; apply Z.leb_le; unfold LV_NORMAL; lia).
  replace (LV_MODERATE <=? level)%Z with true
    by (symmetry; apply Z.leb_le; unfold LV_MODERATE; lia).
  cbv iota zeta.
  destruct (startswith (u "error: ") (Re.sub_sys_file result));
    [split; [reflexivity | discriminate]|].
  cbn [orb]. unfold formatted_at_moderate.
  specialize (IH (replace (code_raw c)
                    (rewrite_moderate
                       (rewrite_normal c
                          match code_formatted c with
                          | Some f => f
                          | None => code_raw c
                          end))
                    (Re.sub_sys_file result))).
  destruct (build_loop level _ rest) as [[stop r] codes'].
  exact IH.
Qed.

(** What [build] returns at level Moderate and above. *)
Lemma build_moderate (b : Beautifier.t) :
  (LV_MODERATE <= _level b)%Z ->
  fst (build b)
  = if error_met b then []
    else if redundant (shown b) then [] else shown b.
Proof.
  intros Hlevel. unfold build, error_met, shown, redundant.
  replace (_level b =? LV_NONE)%Z with false
    by (symmetry; apply Z.eqb_neq; unfold LV_MODERATE, LV_NONE in *; lia).
  fold (codelist b).
  destruct (build_loop_moderate (_level b) (codelist b) Hlevel (_result b))
    as [Hstop Hres].
  destruct (build_loop (_level b) (_result b) (codelist b))
    as [[stop r] codes'].
  cbn [fst snd] in Hstop, Hres. rewrite <- Hstop.
  destruct stop; [reflexivity|].
  rewrite (Hres eq_refl). unfold suppressed_prefixes.
  match goal with
  | |- fst (if ?e then _ else _) = _ => destruct e; reflexivity
  end.
Qed.

(** C4 (amended). At level Moderate and above, on a line that has at least
    one code fragment, [build] returns the empty text if and only if one of
    three things holds: at some turn of its loop the line, once the
    system-header file and line segments are stripped, starts with
    [error: ], whatever follows; or the text left after all the turns,
    trimmed and wrapped, starts with one of the three prefixes [from],
    [note: previous definition], [In file included from]; or that text is
    empty.  In every other case the line is retained: [build] returns that
    text.  A line that starts with [error: ] once stripped is suppressed at
    the first turn.  With a single code fragment the only text tested is the
    stripped line.  So the error line of a system header
    [/usr/include/x.h:5: error: bad] is suppressed, the error line of a user
    file [a.cpp:3: error: bad] is kept as it is, and the note line of
    scenario 4 is kept as
    [note: candidates are: void push_back(const int&)]. *)
Theorem moderate_suppression :
  (forall (b : Beautifier.t) (c : code) (rest : list code),
      (LV_MODERATE <= _level b)%Z ->
      codelist b = c :: rest ->
      (fst (build b) = []
       <-> error_met b = true \/ redundant (shown b) = true \/ shown b = [])
      /\ (error_met b = false -> redundant (shown b) = false ->
          fst (build b) = shown b)
      /\ (startswith (u "error: ") (Re.sub_sys_file (_result b)) = true ->
          error_met b = true /\ fst (build b) = [])
      /\ (rest = [] ->
          error_met b
          = startswith (u "error: ") (Re.sub_sys_file (_result b))))
  /\ (forall level : Z,
         (LV_MODERATE <= level)%Z ->
         Re.sub_sys_file scenario4
         = u "note: candidates are: void push_back(const int&)"
         /\ process_line level None scenario4
            = ret (u "note: candidates are: void push_back(const int&)")
         /\ process_line level None (u "a.cpp:3: error: bad")
            = ret (u "a.cpp:3: error: bad")
         /\ process_line level None (u "/usr/include/x.h:5: error: bad")
            = ret []).
Proof.
  split.
  - intros b c rest Hlevel Hcodes.
    pose proof (build_moderate b Hlevel) as Hb.
    split; [|split; [|split]].
    + rewrite Hb. destruct (error_met b); [tauto|].
      destruct (redundant (shown b)); [tauto|].
      split; [tauto|].
      intros [H|[H|H]]; [discriminate | discriminate | exact H].
    + intros He Hr. rewrite Hb, He, Hr. reflexivity.
    + intros Herr.
      assert (He : error_met b = true).
      { unfold error_met. rewrite Hcodes. cbn [tested existsb].
        rewrite Herr. reflexivity. }
      split; [exact He|]. rewrite Hb, He. reflexivity.
    + intros ->. unfold error_met. rewrite Hcodes. cbn [tested existsb].
      apply orb_false_r.
  - intros level Hlevel. split; [vm_compute; reflexivity|].
    rewrite !(process_line_above_moderate level None _ Hlevel).
    split_all; vm_compute; reflexivity.
Qed.

(** The error line of a system header is suppressed, the error line of a
    user file is retained. *)
Lemma moderate_suppression_witness :
  codelist system_error_instance
  = [ {| code_raw := u "bad"; code_with_tokens := Some [];
         code_formatted := None |} ]
  /\ (error_met system_error_instance = true
      /\ fst (build system_error_instance) = [])
  /\ codelist user_error_instance
     = [ {| code_raw := u "bad"; code_with_tokens := Some [];
            code_formatted := None |} ]
  /\ shown user_error_instance = u "a.cpp:3: error: bad"
  /\ fst (build user_error_instance) = shown user_error_instance
  /\ process_line LV_ALL None (u "a.cpp:3: error: bad")
     = ret (u "a.cpp:3: error: bad").
Proof.
  assert (Hc : codelist system_error_instance
               = [ {| code_raw := u "bad"; code_with_tokens := Some [];
                      code_formatted := None |} ])
    by (vm_compute; reflexivity).
  assert (Hu : codelist user_error_instance
               = [ {| code_raw := u "bad"; code_with_tokens := Some [];
                      code_formatted := None |} ])
    by (vm_compute; reflexivity).
  split; [exact Hc|]. split; [|split; [exact Hu|split; [|split]]].
  - apply (proj1 (proj2 (proj2
             (proj1 moderate_suppression system_error_instance _ _
                ltac:(vm_compute; discriminate) Hc)))).
    vm_compute. reflexivity.
  - vm_compute. reflexivity.
  - apply (proj1 (proj2
             (proj1 moderate_suppression user_error_instance _ _
                ltac:(vm_compute; discriminate) Hu))).
    + vm_compute. reflexivity.
    + vm_compute. reflexivity.
  - apply (proj2 moderate_suppression LV_ALL). vm_compute. discriminate.
Defined.


(** * Further properties *)

(** ** Whitespace *)

Lemma dropwhile_head (p : char -> bool) (s t : text) (c : char) :
  dropwhile p s = c :: t -> p c = false.
Proof.
  induction s as [|d s IH]; simpl; [discriminate|].
  destruct (p d) eqn:Hd; [exact IH|].
  intros H. injection H as <- _. exact Hd.
Qed.

Lemma dropwhile_fixed (p : char -> bool) (s : text) :
  match s with c :: _ => p c = false | [] => True end ->
  dropwhile p s = s.
Proof. destruct s as [|c s]; simpl; [reflexivity|]. intros ->. reflexivity. Qed.

Lemma dropwhile_idempotent (p : char -> bool) (s : text) :
  dropwhile p (dropwhile p s) = dropwhile p s.
Proof.
  apply dropwhile_fixed. destruct (dropwhile p s) as [|c t] eqn:H; [exact I|].
  exact (dropwhile_head p s t c H).
Qed.

Lemma dropwhile_snoc (p : char -> bool) (s : text) (c : char) :
  p c = false -> dropwhile p (s ++ [c]) = dropwhile p s ++ [c].
Proof.
  intros Hc. induction s as [|d s IH]; simpl; [rewrite Hc; reflexivity|].
  destruct (p d); [exact IH | reflexivity].
Qed.

Lemma rstrip_idempotent (s : text) : rstrip (rstrip s) = rstrip s.
Proof.
  unfold rstrip. rewrite rev_involutive, dropwhile_idempotent. reflexivity.
Qed.

(** What [rstrip] leaves of a text that starts with a character other than
    whitespace starts with that character. *)
Lemma lstrip_rstrip (s : text) : lstrip s = s -> lstrip (rstrip s) = rstrip s.
Proof.
  intros Hs. destruct s as [|c s]; [reflexivity|].
  assert (Hc : isspace c = false).
  { unfold lstrip in Hs. simpl in Hs. destruct (isspace c) eqn:E; [|reflexivity].
    exfalso. assert (Hlen : List.length (dropwhile isspace s) <= List.length s).
    { clear. induction s as [|d s IH]; simpl; [lia|].
      destruct (isspace d); simpl; lia. }
    rewrite Hs in Hlen. simpl in Hlen. lia. }
  unfold rstrip. simpl rev. rewrite (dropwhile_snoc isspace (rev s) c Hc).
  rewrite rev_app_distr. simpl. unfold lstrip. simpl. rewrite Hc. reflexivity.
Qed.

(** [s.strip().strip()] is [s.strip()]. *)
Lemma strip_idempotent (s : text) : strip (strip s) = strip s.
Proof.
  unfold strip.
  rewrite (lstrip_rstrip (lstrip s)) by apply dropwhile_idempotent.
  apply rstrip_idempotent.
Qed.

Lemma forallb_dropwhile (p q : char -> bool) (s : text) :
  forallb p s = true -> forallb p (dropwhile q s) = true.
Proof.
  induction s as [|c s IH]; simpl; [reflexivity|].
  intros H. destruct (q c); [|exact H].
  apply andb_true_iff in H as [_ H]. exact (IH H).
Qed.

Lemma forallb_rev (p : char -> bool) (s : text) :
  forallb p s = true -> forallb p (rev s) = true.
Proof.
  intros H. apply forallb_forall. intros c Hc.
  apply in_rev in Hc. rewrite forallb_forall in H. exact (H c Hc).
Qed.

(** [strip] only removes characters. *)
Lemma forallb_strip (p : char -> bool) (s : text) :
  forallb p s = true -> forallb p (strip s) = true.
Proof.
  intros H. unfold strip, rstrip, lstrip.
  apply forallb_rev, forallb_dropwhile, forallb_rev, forallb_dropwhile, H.
Qed.

(** ** The classifier: numbers, the raw line, a second call *)

Section ClassifierFields.

Variable parse_message : list text -> result message.

Lemma classify_numbered_numbers (a a' : attributes) (segments : list text) :
  number_ok (attr_column a) ->
  classify_numbered parse_message a segments = ret a' ->
  number_ok (attr_line a') /\ number_ok (attr_column a').
Proof.
  unfold classify_numbered, number_ok, ret, raise. intros Hcol H.
  repeat step_result; cbn;
    repeat match goal with
           | E : int _ = inl _ |- _ => apply int_nonneg in E
           end;
    (split; [right; assumption | first [exact Hcol | right; assumption]]).
Qed.

Lemma classify_numbers (a a' : attributes) (segments : list text) :
  number_ok (attr_line a) -> number_ok (attr_column a) ->
  classify parse_message a segments = ret a' ->
  number_ok (attr_line a') /\ number_ok (attr_column a').
Proof.
  unfold classify, ret, raise. intros Hline Hcol H.
  repeat step_result; cbn; try (split; assumption).
  eapply classify_numbered_numbers; [|exact H]. exact Hcol.
Qed.

Lemma parse_line_with_numbers
    (self : Parser.t) (line : text) (a : attributes) (p : Parser.t) :
  number_ok (attr_line (_attributes self)) ->
  number_ok (attr_column (_attributes self)) ->
  parse_line_with parse_message self line = ret (a, p) ->
  number_ok (attr_line a) /\ number_ok (attr_column a).
Proof.
  unfold parse_line_with, ret, raise. intros Hline Hcol H.
  step_result. step_result.
  destruct (map strip _) as [|s0 [|s1 rest]].
  - step_result. cbn. split; assumption.
  - repeat step_result. cbn. split; assumption.
  - eapply classify_numbers; [| |exact E]; assumption.
Qed.

Lemma classify_numbered_raw (a a' : attributes) (segments : list text) :
  classify_numbered parse_message a segments = ret a' ->
  attr_raw a' = attr_raw a.
Proof.
  unfold classify_numbered, ret, raise. intros H.
  repeat step_result; reflexivity.
Qed.

Lemma classify_raw (a a' : attributes) (segments : list text) :
  classify parse_message a segments = ret a' -> attr_raw a' = attr_raw a.
Proof.
  unfold classify, ret, raise. intros H.
  repeat step_result; try reflexivity.
  apply classify_numbered_raw in H. exact H.
Qed.

End ClassifierFields.

(** Steps through an equation [c = inl _] and, with it, through the same
    tests in the goal. *)
Ltac step_both :=
  match goal with
  | H : bind (if ?b then _ else _) _ = inl _ |- _ => destruct b eqn:?
  | H : bind ?c _ = inl _ |- _ =>
      destruct c eqn:?; cbn [bind] in H |- *; [|discriminate H]
  | H : (if ?b then _ else _) = inl _ |- _ => destruct b eqn:?
  | H : inl _ = inl _ |- _ => injection H as H; subst
  | H : inr _ = inl _ |- _ => discriminate H
  end.

Lemma effective_line (self : Parser.t) (line : text) :
  match line with
  | _ :: _ => if negb (eqb line (_line self)) then line else _line self
  | [] => _line self
  end = line_read self line.
Proof.
  destruct line as [|c line]; [reflexivity|]. unfold line_read.
  destruct (eqb (c :: line) (_line self)) eqn:E; [|reflexivity].
  simpl. symmetry. exact (eqb_eq _ _ E).
Qed.

Lemma set_raw_same (a : attributes) : set_raw a (attr_raw a) = a.
Proof. destruct a. reflexivity. Qed.

Section ClassifierAgain.

Variable parse_message : list text -> result message.

Lemma classify_numbered_again (a0 a : attributes) (segments : list text) :
  classify_numbered parse_message a0 segments = ret a ->
  classify_numbered parse_message a segments = ret a.
Proof.
  unfold classify_numbered, ret, raise. intros H.
  repeat step_both; destruct a0; reflexivity.
Qed.

Lemma classify_numbered_keeps (a0 a : attributes) (segments : list text) :
  classify_numbered parse_message a0 segments = ret a ->
  attr_file a = attr_file a0 /\ attr_sys_file a = attr_sys_file a0.
Proof.
  unfold classify_numbered, ret, raise. intros H.
  repeat step_result; split; reflexivity.
Qed.

Lemma classify_again (a0 a : attributes) (segments : list text) :
  classify parse_message a0 segments = ret a ->
  classify parse_message a segments = ret a.
Proof.
  unfold classify, ret, raise. intros H.
  repeat step_both; try reflexivity; try (destruct a0; reflexivity).
  destruct (classify_numbered_keeps _ _ _ H) as [Hfile Hsys].
  cbn in Hfile, Hsys.
  match goal with
  | |- classify_numbered _ ?A _ = _ =>
      replace A with a by (destruct a; cbn in *; subst; reflexivity)
  end.
  exact (classify_numbered_again _ _ _ H).
Qed.

Lemma parse_line_with_again
    (self : Parser.t) (line line' : text) (a : attributes) (p : Parser.t) :
  parse_line_with parse_message self line = ret (a, p) ->
  line' = [] \/ line' = line_read self line ->
  parse_line_with parse_message p line' = ret (a, p).
Proof.
  unfold parse_line_with. cbv zeta. rewrite !effective_line.
  intros H Hline. unfold ret, raise in *.
  match type of H with
  | bind ?c _ = _ => destruct c as [a1|e] eqn:Hbranch
  end; cbn [bind] in H; [|discriminate H].
  injection H as Ha Hp. subst a1.
  assert (Hraw : attr_raw a = strip (line_read self line)).
  { destruct (map strip _) as [|s0 [|s1 rest]].
    - injection Hbranch as <-. reflexivity.
    - repeat step_result. reflexivity.
    - apply classify_raw in Hbranch. exact Hbranch. }
  assert (Hread : strip (line_read p line') = strip (line_read self line)).
  { destruct Hline as [->| ->].
    - rewrite <- Hp. cbn. apply strip_idempotent.
    - unfold line_read at 1.
      destruct (line_read self line) eqn:E; [|reflexivity].
      rewrite <- Hp. reflexivity. }
  rewrite Hread.
  replace (_attributes p) with a by (rewrite <- Hp; reflexivity).
  replace (set_raw a (strip (line_read self line))) with a
    by (rewrite <- Hraw; symmetry; apply set_raw_same).
  match goal with
  | |- bind ?c _ = _ => assert (Hagain : c = inl a)
  end.
  { destruct (map strip _) as [|s0 [|s1 rest]].
    - reflexivity.
    - repeat step_both. destruct self as [l0 a0]. destruct a0. reflexivity.
    - exact (classify_again _ _ _ Hbranch). }
  rewrite Hagain. cbn [bind]. rewrite Hp. reflexivity.
Qed.

End ClassifierAgain.

Lemma parse_line_with_state
    (parse_message : list text -> result message)
    (self : Parser.t) (line : text) (a : attributes) (p : Parser.t) :
  parse_line_with parse_message self line = ret (a, p) ->
  attr_raw a = strip (line_read self line)
  /\ _line p = strip (line_read self line)
  /\ _attributes p = a.
Proof.
  unfold parse_line_with. cbv zeta. rewrite !effective_line.
  intros H. unfold ret, raise in *.
  match type of H with
  | bind ?c _ = _ => destruct c as [a1|e] eqn:Hbranch
  end; cbn [bind] in H; [|discriminate H].
  injection H as Ha Hp. subst a1. rewrite <- Hp. cbn.
  split; [|split; reflexivity].
  destruct (map strip _) as [|s0 [|s1 rest]].
  - injection Hbranch as <-. reflexivity.
  - repeat step_result. reflexivity.
  - apply classify_raw in Hbranch. exact Hbranch.
Qed.

(** X1. A call of [parse_line], of the parser or of the beautifier, on an
    instance whose line and column numbers are absent (-1) or not negative
    returns a record whose line and column numbers are absent or not
    negative: the field is only assigned [int] of a segment that starts with
    a digit. *)
Theorem numbers_absent_or_not_negative
    (self : Parser.t) (line : text) (a : attributes) (p : Parser.t) :
  number_ok (attr_line (_attributes self)) ->
  number_ok (attr_column (_attributes self)) ->
  Parser.parse_line self line = ret (a, p)
  \/ Beautifier.parse_line self line = ret (a, p) ->
  number_ok (attr_line a) /\ number_ok (attr_column a).
Proof.
  intros Hline Hcol [H|H];
    exact (parse_line_with_numbers _ _ _ _ _ Hline Hcol H).
Qed.

Lemma numbers_absent_or_not_negative_witness :
  exists a p,
    Parser.parse_line (Parser.__init__ []) (u "a.cpp:12:7: error: x")
    = ret (a, p)
    /\ attr_line a = 12%Z /\ attr_column a = 7%Z
    /\ number_ok (attr_line a) /\ number_ok (attr_column a).
Proof.
  eexists. eexists.
  assert (H : Parser.parse_line (Parser.__init__ []) (u "a.cpp:12:7: error: x")
              = ret (_, _)) by (vm_compute; reflexivity).
  split; [exact H|]. split; [reflexivity|]. split; [reflexivity|].
  eapply (numbers_absent_or_not_negative (Parser.__init__ [])
            (u "a.cpp:12:7: error: x")).
  - left. reflexivity.
  - left. reflexivity.
  - left. exact H.
Defined.

(** X2. The record [parse_line] returns holds, under ["raw"], the line read
    with the whitespace at both ends removed; the instance keeps that
    stripped line as [self._line], and its dictionary [self._attributes] is
    the record returned.  The line read is the argument, or the line of the
    instance when the argument is empty. *)
Theorem parse_line_raw_and_state
    (self : Parser.t) (line : text) (a : attributes) (p : Parser.t) :
  Parser.parse_line self line = ret (a, p)
  \/ Beautifier.parse_line self line = ret (a, p) ->
  attr_raw a = strip (line_read self line)
  /\ _line p = strip (line_read self line)
  /\ _attributes p = a.
Proof. intros [H|H]; exact (parse_line_with_state _ _ _ _ _ H). Qed.

Lemma parse_line_raw_and_state_witness :
  exists a p,
    Parser.parse_line (Parser.__init__ (u "  a.cpp:12: note: x  ")) []
    = ret (a, p)
    /\ attr_raw a = u "a.cpp:12: note: x"
    /\ _line p = u "a.cpp:12: note: x"
    /\ _attributes p = a.
Proof.
  eexists. eexists.
  assert (H : Parser.parse_line
                (Parser.__init__ (u "  a.cpp:12: note: x  ")) []
              = ret (_, _)) by (vm_compute; reflexivity).
  split; [exact H|].
  exact (parse_line_raw_and_state _ _ _ _ (or_introl H)).
Defined.

(** X3. A second call of [parse_line] on the instance, without argument or
    with the line just read, returns the record of the first call and
    leaves the instance as it is: every key the branch assigns gets the
    value it already has. *)
Theorem parse_line_again_same_record
    (self : Parser.t) (line line' : text) (a : attributes) (p : Parser.t) :
  line' = [] \/ line' = line_read self line ->
  (Parser.parse_line self line = ret (a, p) ->
   Parser.parse_line p line' = ret (a, p))
  /\ (Beautifier.parse_line self line = ret (a, p) ->
      Beautifier.parse_line p line' = ret (a, p)).
Proof.
  intros Hline.
  split; intros H; exact (parse_line_with_again _ _ _ _ _ _ H Hline).
Qed.

Lemma parse_line_again_same_record_witness :
  exists a p,
    Parser.parse_line (Parser.__init__ []) (u "a.cpp:12:7: error: x")
    = ret (a, p)
    /\ Parser.parse_line p [] = ret (a, p)
    /\ Parser.parse_line p (u "a.cpp:12:7: error: x") = ret (a, p).
Proof.
  eexists. eexists.
  assert (H : Parser.parse_line (Parser.__init__ []) (u "a.cpp:12:7: error: x")
              = ret (_, _)) by (vm_compute; reflexivity).
  split; [exact H|]. split.
  - exact (proj1 (parse_line_again_same_record (Parser.__init__ [])
                    (u "a.cpp:12:7: error: x") [] _ _ (or_introl eq_refl)) H).
  - exact (proj1 (parse_line_again_same_record (Parser.__init__ [])
                    (u "a.cpp:12:7: error: x") (u "a.cpp:12:7: error: x") _ _
                    (or_intror eq_refl)) H).
Defined.

(** ** Lines without separator *)

Lemma plain_not_sep (prev : option char) (c : char) (rest : text) :
  plain_char c = true -> Re.is_sep prev c rest = false.
Proof.
  unfold plain_char, Re.is_sep. intros H.
  apply andb_true_iff in H as [H1 H2].
  apply negb_true_iff in H1, H2. rewrite H1, H2. reflexivity.
Qed.

Lemma split_sep_scan_plain (s : text) :
  forall prev cur,
    forallb plain_char s = true ->
    Re.split_sep_scan prev cur s = [rev cur ++ s].
Proof.
  induction s as [|c s IH]; intros prev cur H; simpl.
  - rewrite app_nil_r. reflexivity.
  - simpl in H. apply andb_true_iff in H as [Hc Hs].
    rewrite (plain_not_sep prev c s Hc), (IH _ _ Hs). simpl.
    rewrite <- app_assoc. reflexivity.
Qed.

(** X4. A line that holds neither a colon nor a comma never makes the
    parser raise: it is one segment, and the record of a new instance has the
    type note, the file [<unknown>], no line and no column number, and the
    message built from the stripped line. *)
Theorem line_without_separator_is_note (line : text) :
  forallb plain_char line = true ->
  Parser.parse_line (Parser.__init__ line) []
  = ret (let a :=
           {| attr_raw := strip line; attr_type := Some LT_NOTE;
              attr_file := u "<unknown>"; attr_line := (-1)%Z;
              attr_column := (-1)%Z; attr_sys_file := None;
              attr_message := Parser._parse_message [strip line] |} in
         (a, {| _line := strip line; _attributes := a |})).
Proof.
  intros H. unfold Parser.parse_line, parse_line_with. cbn [Parser.__init__ _line _attributes].
  unfold Re.split_sep.
  rewrite (split_sep_scan_plain _ None [] (forallb_strip _ _ H)).
  cbn [map rev app]. rewrite strip_idempotent. reflexivity.
Qed.

Lemma line_without_separator_is_note_witness :
  forallb plain_char (u "  make[1] Leaving directory  ") = true
  /\ exists a p,
       Parser.parse_line (Parser.__init__ (u "  make[1] Leaving directory  ")) []
       = ret (a, p)
       /\ attr_type a = Some LT_NOTE
       /\ attr_raw a = u "make[1] Leaving directory".
Proof.
  split; [reflexivity|]. eexists. eexists. split.
  - apply (line_without_separator_is_note
             (u "  make[1] Leaving directory  ")). reflexivity.
  - split; [reflexivity | vm_compute; reflexivity].
Defined.

(** ** The code fragments of a message *)

Lemma forallb_takewhile (p : char -> bool) (s : text) :
  forallb p (takewhile p s) = true.
Proof.
  induction s as [|c s IH]; simpl; [reflexivity|].
  destruct (p c) eqn:Hc; [|reflexivity]. simpl. rewrite Hc. exact IH.
Qed.

(** What the code pattern matches: an opening quote, a text that is not
    empty and holds no closing quote, and a closing quote. *)
Lemma code_at_shape (s m : text) :
  Re.code_at s = Some m ->
  exists body,
    m = Re.lquote :: body ++ [Re.rquote]
    /\ body <> [] /\ forallb Re.not_rquote body = true.
Proof.
  unfold Re.code_at. destruct s as [|c r]; [discriminate|].
  destruct (N.eqb_spec c Re.lquote) as [->|_]; [|discriminate].
  destruct (takewhile Re.not_rquote r) as [|b body] eqn:Hb; [discriminate|].
  destruct (dropwhile Re.not_rquote r) as [|q t] eqn:Hq; [discriminate|].
  intros H. injection H as <-. exists (b :: body).
  apply dropwhile_head in Hq. unfold Re.not_rquote in Hq.
  apply negb_false_iff, N.eqb_eq in Hq. subst q.
  split; [reflexivity|]. split; [discriminate|].
  rewrite <- Hb. apply forallb_takewhile.
Qed.

Lemma takewhile_dropwhile (p : char -> bool) (s : text) :
  takewhile p s ++ dropwhile p s = s.
Proof.
  induction s as [|c s IH]; simpl; [reflexivity|].
  destruct (p c); [simpl; rewrite IH|]; reflexivity.
Qed.

Lemma startswith_app (m t : text) : startswith m (m ++ t) = true.
Proof.
  induction m as [|c m IH]; [reflexivity|].
  cbn [app startswith]. rewrite N.eqb_refl. exact IH.
Qed.

Lemma contains_after (m pre s : text) :
  startswith m s = true -> contains m (pre ++ s) = true.
Proof.
  intros H. induction pre as [|c pre IH]; cbn [app].
  - destruct s; cbn [contains]; rewrite H; reflexivity.
  - cbn [contains]. rewrite IH. apply orb_true_r.
Qed.

(** The text the code pattern matches at the start of [s] starts [s]. *)
Lemma code_at_startswith (s m : text) :
  Re.code_at s = Some m -> startswith m s = true.
Proof.
  unfold Re.code_at. destruct s as [|c r]; [discriminate|].
  destruct (N.eqb c Re.lquote); [|discriminate].
  pose proof (takewhile_dropwhile Re.not_rquote r) as Hr.
  destruct (takewhile Re.not_rquote r) as [|b body]; [discriminate|].
  destruct (dropwhile Re.not_rquote r) as [|q t]; [discriminate|].
  intros H. injection H as <-. rewrite <- Hr.
  replace (c :: (b :: body) ++ q :: t) with ((c :: (b :: body) ++ [q]) ++ t)
    by (cbn [app]; rewrite <- app_assoc; reflexivity).
  apply startswith_app.
Qed.

(** Every match [findall] returns is the match of the code pattern at some
    place of the text scanned. *)
Lemma findall_code_scan_matches (s : text) :
  forall skip m,
    In m (Re.findall_code_scan skip s) ->
    exists pre s', s = pre ++ s' /\ Re.code_at s' = Some m.
Proof.
  induction s as [|c s IH]; intros skip m H; [contradiction|].
  assert (Hlater : forall k, In m (Re.findall_code_scan k s) ->
            exists pre s', c :: s = pre ++ s' /\ Re.code_at s' = Some m).
  { intros k Hk. destruct (IH _ _ Hk) as (pre & s' & -> & Hs').
    exists (c :: pre), s'. split; [reflexivity | exact Hs']. }
  cbn [Re.findall_code_scan] in H. destruct skip as [|k].
  - destruct (Re.code_at (c :: s)) as [m'|] eqn:Hm.
    + destruct H as [<-|H]; [|exact (Hlater _ H)].
      exists [], (c :: s). split; [reflexivity | exact Hm].
    + exact (Hlater _ H).
  - exact (Hlater _ H).
Qed.

Lemma slice_quotes (body : text) :
  slice_1_m1 (Re.lquote :: body ++ [Re.rquote]) = body.
Proof. unfold slice_1_m1. simpl tl. apply removelast_last. Qed.

(** X5. When the message holds text between typographic quotes, every code
    fragment [_parse_message] returns is such a text of the message without
    its quotes: it is not empty, it holds no closing quote U+2019, and
    between an opening quote U+2018 and a closing quote it stands in the
    message, which is the segments joined by a colon and a blank. *)
Theorem quoted_fragments_hold_no_quote (segments : list text) (c : code) :
  Re.findall_code (join (u ": ") segments) <> [] ->
  In c (msg_codelist (Parser._parse_message segments)) ->
  code_raw c <> []
  /\ forallb Re.not_rquote (code_raw c) = true
  /\ contains (Re.lquote :: code_raw c ++ [Re.rquote])
       (msg_raw (Parser._parse_message segments)) = true
  /\ msg_raw (Parser._parse_message segments) = join (u ": ") segments.
Proof.
  unfold Parser._parse_message. cbn [msg_codelist msg_raw].
  destruct (Re.findall_code (join (u ": ") segments)) as [|m0 ms] eqn:Hcodes;
    [intros H; contradiction|].
  intros _ Hc. apply in_map_iff in Hc as [m [<- Hm]].
  rewrite <- Hcodes in Hm. unfold Re.findall_code in Hm.
  apply findall_code_scan_matches in Hm as (pre & s' & Hpre & Hs').
  pose proof (code_at_startswith _ _ Hs') as Hstart.
  apply code_at_shape in Hs' as [body [-> [Hne Hall]]].
  cbn [raw_code code_raw]. rewrite slice_quotes.
  split; [assumption|]. split; [assumption|]. split; [|reflexivity].
  rewrite Hpre. apply contains_after. exact Hstart.
Qed.

Lemma quoted_fragments_hold_no_quote_witness :
  let segments := [u "no match for " ++ [Re.lquote] ++ u "operator<<"
                     ++ [Re.rquote] ++ u " in " ++ [Re.lquote]
                     ++ u "std::cout << x" ++ [Re.rquote]] in
  map code_raw (msg_codelist (Parser._parse_message segments))
  = [u "operator<<"; u "std::cout << x"]
  /\ (code_raw (raw_code (u "operator<<")) <> []
      /\ forallb Re.not_rquote (code_raw (raw_code (u "operator<<"))) = true
      /\ contains
           (Re.lquote :: code_raw (raw_code (u "operator<<")) ++ [Re.rquote])
           (msg_raw (Parser._parse_message segments)) = true
      /\ msg_raw (Parser._parse_message segments) = join (u ": ") segments).
Proof.
  intros segments. split; [vm_compute; reflexivity|].
  apply (quoted_fragments_hold_no_quote segments).
  - vm_compute. discriminate.
  - vm_compute. left. reflexivity.
Defined.

Lemma findall_code_scan_unquoted (s : text) :
  forall skip,
    forallb (fun c => negb (N.eqb c Re.lquote)) s = true ->
    Re.findall_code_scan skip s = [].
Proof.
  induction s as [|c s IH]; intros skip H; [reflexivity|].
  simpl in H. apply andb_true_iff in H as [Hc Hs].
  apply negb_true_iff in Hc.
  cbn [Re.findall_code_scan]. destruct skip; [|exact (IH _ Hs)].
  unfold Re.code_at. rewrite Hc. exact (IH _ Hs).
Qed.

(** X6. A message that holds no opening quote U+2018 has exactly one code
    fragment, and none when there is no segment: the segments joined with a
    colon (without the blank of the raw message), the first segment left
    out when it is [candidates are]. *)
Theorem unquoted_message_one_fragment (segments : list text) :
  forallb (fun c => negb (N.eqb c Re.lquote)) (join (u ": ") segments) = true ->
  msg_codelist (Parser._parse_message segments)
  = match segments with
    | [] => []
    | s0 :: rest =>
        [raw_code (join (u ":")
                     (if eqb s0 (u "candidates are") then rest
                      else segments))]
    end.
Proof.
  intros H. unfold Parser._parse_message. cbn [msg_codelist].
  unfold Re.findall_code. rewrite (findall_code_scan_unquoted _ 0 H).
  destruct segments as [|s0 rest]; [reflexivity|].
  destruct (eqb s0 (u "candidates are")); reflexivity.
Qed.

Lemma unquoted_message_one_fragment_witness :
  map code_raw
    (msg_codelist
       (Parser._parse_message [u "candidates are"; u "void f(int)"; u "x"]))
  = [u "void f(int):x"].
Proof.
  rewrite (unquoted_message_one_fragment
             [u "candidates are"; u "void f(int)"; u "x"]
             ltac:(vm_compute; reflexivity)).
  vm_compute. reflexivity.
Defined.

(** ** Unclassified lines and the flag of system files *)

Section ClassifierType.

Variable parse_message : list text -> result message.

Lemma classify_numbered_typed (a a' : attributes) (segments : list text) :
  classify_numbered parse_message a segments = ret a' ->
  attr_type a' <> None.
Proof.
  unfold classify_numbered, ret, raise. intros H.
  repeat step_result; cbn; discriminate.
Qed.

Lemma classify_untyped (a a' : attributes) (segments : list text) :
  classify parse_message a segments = ret a' ->
  attr_type a' = None ->
  attr_line a' = attr_line a /\ attr_column a' = attr_column a
  /\ attr_message a' = attr_message a.
Proof.
  unfold classify, ret, raise. intros H.
  repeat step_result; cbn; try discriminate;
    try (intros _; repeat split; reflexivity).
  intros Hnone. apply classify_numbered_typed in H. contradiction.
Qed.

Lemma classify_flag (a a' : attributes) (segments : list text) (b : bool) :
  attr_sys_file a = None ->
  classify parse_message a segments = ret a' ->
  attr_sys_file a' = Some b ->
  Re.match_file (attr_file a') = true
  /\ b = Re.match_sys_file (attr_file a').
Proof.
  unfold classify, ret, raise. intros Hnone H.
  repeat step_result; cbn;
    try (rewrite Hnone; discriminate);
    try (intros Hb; injection Hb as <-; split; [assumption | reflexivity]).
  apply classify_numbered_keeps in H as [Hf Hs]. cbn in Hf, Hs.
  rewrite Hf, Hs. intros Hb. injection Hb as <-.
  split; [assumption | reflexivity].
Qed.

End ClassifierType.

Lemma forallb_strip_prefix (q : char -> bool) (p s r : text) :
  Re.strip_prefix p s = Some r -> forallb q s = true -> forallb q r = true.
Proof.
  revert s. induction p as [|a p IH]; intros s H Hs.
  - injection H as <-. exact Hs.
  - destruct s as [|c s]; [discriminate|]. simpl in H.
    destruct (N.eqb a c); [|discriminate].
    simpl in Hs. apply andb_true_iff in Hs as [_ Hs]. exact (IH _ H Hs).
Qed.

Lemma dropwhile_all (p : char -> bool) (s : text) :
  forallb p s = true -> dropwhile p s = [].
Proof.
  induction s as [|c s IH]; [reflexivity|]. simpl. intros H.
  apply andb_true_iff in H as [Hc Hs]. rewrite Hc. exact (IH Hs).
Qed.

(** The system-file pattern wants a colon after the path. *)
Lemma match_sys_file_colon (s : text) :
  forallb Re.not_colon s = true -> Re.match_sys_file s = false.
Proof.
  intros H. unfold Re.match_sys_file, Re.sys_file_at.
  destruct (Re.strip_prefix (u "/usr/include/") s) as [r|] eqn:Hr;
    [|reflexivity].
  rewrite (dropwhile_all _ _ (forallb_strip_prefix _ _ _ _ Hr H)).
  destruct (takewhile Re.not_colon r); reflexivity.
Qed.

(** X7. A record that a new instance returns unclassified (type [None])
    has no line number, no column number and the empty message it was
    created with: whenever [parse_line] records a line number or builds a
    message it also assigns a type. *)
Theorem unclassified_record_is_bare
    (l0 line : text) (a : attributes) (p : Parser.t) :
  Parser.parse_line (Parser.__init__ l0) line = ret (a, p)
  \/ Beautifier.parse_line (Parser.__init__ l0) line = ret (a, p) ->
  attr_type a = None ->
  attr_line a = (-1)%Z /\ attr_column a = (-1)%Z
  /\ attr_message a = {| msg_raw := []; msg_codelist := [] |}.
Proof.
  assert (Hgen : forall pm,
    parse_line_with pm (Parser.__init__ l0) line = ret (a, p) ->
    attr_type a = None ->
    attr_line a = (-1)%Z /\ attr_column a = (-1)%Z
    /\ attr_message a = {| msg_raw := []; msg_codelist := [] |}).
  { intros pm. unfold parse_line_with, ret, raise. cbv zeta. intros H.
    match type of H with
    | bind ?c _ = _ => destruct c as [a1|e] eqn:Hbranch
    end; cbn [bind] in H; [|discriminate H].
    injection H as Ha _. subst a1.
    destruct (map strip _) as [|s0 [|s1 rest]].
    - injection Hbranch as <-. intros _. repeat split; reflexivity.
    - unfold ret, raise in Hbranch. repeat step_result. cbn. discriminate.
    - intros Hnone.
      exact (classify_untyped pm _ _ _ Hbranch Hnone). }
  intros [H|H]; exact (Hgen _ H).
Qed.

Lemma unclassified_record_is_bare_witness :
  exists a p,
    Parser.parse_line (Parser.__init__ []) (u ": no file") = ret (a, p)
    /\ attr_type a = None
    /\ attr_line a = (-1)%Z /\ attr_column a = (-1)%Z
    /\ attr_message a = {| msg_raw := []; msg_codelist := [] |}.
Proof.
  eexists. eexists.
  assert (H : Parser.parse_line (Parser.__init__ []) (u ": no file")
              = ret (_, _)) by (vm_compute; reflexivity).
  split; [exact H|]. split; [reflexivity|].
  exact (unclassified_record_is_bare [] (u ": no file") _ _ (or_introl H)
           eq_refl).
Defined.

(** X8. The key ["sys_file"] of the record of a new instance, when it is
    there, is the match of the system-file pattern on the file name
    recorded, which matches the file pattern.  That pattern wants a colon
    after the path, and a segment is cut at single colons: the flag is
    true only for a file name that holds a colon, never for a path such as
    [/usr/include/c++/4.4/bits/stl_vector.h]. *)
Theorem sys_file_flag
    (l0 line : text) (a : attributes) (p : Parser.t) (b : bool) :
  Parser.parse_line (Parser.__init__ l0) line = ret (a, p)
  \/ Beautifier.parse_line (Parser.__init__ l0) line = ret (a, p) ->
  attr_sys_file a = Some b ->
  Re.match_file (attr_file a) = true
  /\ b = Re.match_sys_file (attr_file a)
  /\ (forallb Re.not_colon (attr_file a) = true -> b = false).
Proof.
  assert (Hgen : forall pm,
    parse_line_with pm (Parser.__init__ l0) line = ret (a, p) ->
    attr_sys_file a = Some b ->
    Re.match_file (attr_file a) = true
    /\ b = Re.match_sys_file (attr_file a)).
  { intros pm. unfold parse_line_with, ret, raise. cbv zeta. intros H.
    match type of H with
    | bind ?c _ = _ => destruct c as [a1|e] eqn:Hbranch
    end; cbn [bind] in H; [|discriminate H].
    injection H as Ha _. subst a1.
    destruct (map strip _) as [|s0 [|s1 rest]].
    - injection Hbranch as <-. cbn. discriminate.
    - unfold ret, raise in Hbranch. repeat step_result. cbn. discriminate.
    - eapply (classify_flag pm); [|exact Hbranch]. reflexivity. }
  intros Hparse Hb.
  assert (H : Re.match_file (attr_file a) = true
              /\ b = Re.match_sys_file (attr_file a))
    by (destruct Hparse as [H|H]; exact (Hgen _ H Hb)).
  destruct H as [Hf Hm]. split; [exact Hf|]. split; [exact Hm|].
  intros Hc. rewrite Hm. apply match_sys_file_colon. exact Hc.
Qed.

Lemma sys_file_flag_witness :
  exists a p,
    Parser.parse_line (Parser.__init__ [])
      (u "/usr/include/c++/4.4/bits/stl_vector.h:733: note: x") = ret (a, p)
    /\ attr_file a = u "/usr/include/c++/4.4/bits/stl_vector.h"
    /\ attr_sys_file a = Some false
    /\ Re.match_file (attr_file a) = true.
Proof.
  eexists. eexists.
  assert (H : Parser.parse_line (Parser.__init__ [])
                (u "/usr/include/c++/4.4/bits/stl_vector.h:733: note: x")
              = ret (_, _)) by (vm_compute; reflexivity).
  split; [exact H|]. split; [reflexivity|]. split; [reflexivity|].
  exact (proj1 (sys_file_flag [] _ _ _ false (or_introl H) eq_refl)).
Defined.

(** ** The beautifier classifies as the parser does *)

Lemma map_result_erase (l : list code) :
  forall l',
    map_result
      (fun c =>
         toks <- _parse_with_stmts (code_raw c) ;;
         ret {| code_raw := code_raw c; code_with_tokens := Some toks;
                code_formatted := code_formatted c |}) l = ret l' ->
    map erase_code l' = map erase_code l.
Proof.
  induction l as [|c l IH]; intros l' H.
  - injection H as <-. reflexivity.
  - cbn [map_result] in H. unfold ret, raise in *.
    destruct (_parse_with_stmts (code_raw c)) as [toks|e];
      cbn [bind] in H; [|discriminate H].
    destruct (map_result _ l) as [ys|e] eqn:Hl; cbn [bind] in H;
      [|discriminate H].
    injection H as <-. cbn [map]. rewrite (IH ys eq_refl). reflexivity.
Qed.

Lemma parser_message_erased (segments : list text) :
  erase_message (Parser._parse_message segments)
  = Parser._parse_message segments.
Proof.
  unfold erase_message, Parser._parse_message. cbn [msg_raw msg_codelist].
  f_equal.
  destruct (Re.findall_code _) as [|m ms].
  - destruct segments as [|s0 rest]; [reflexivity|].
    destruct (eqb s0 (u "candidates are")); reflexivity.
  - rewrite map_map. reflexivity.
Qed.

Lemma beautifier_message_erased (segments : list text) (m : message) :
  Beautifier._parse_message segments = ret m ->
  erase_message m = Parser._parse_message segments.
Proof.
  unfold Beautifier._parse_message, ret, raise. intros H.
  destruct (map_result _ _) as [codes|e] eqn:Hc; cbn [bind] in H;
    [|discriminate H].
  injection H as <-. rewrite <- parser_message_erased.
  unfold erase_message. cbn [msg_raw msg_codelist].
  rewrite (map_result_erase _ _ Hc). reflexivity.
Qed.

(** Steps through a run of the beautifier's [classify] and, with it,
    through the parser's run in the goal. *)
Ltac step_erase :=
  match goal with
  | H : bind (Beautifier._parse_message ?s) _ = inl _ |- _ =>
      let m := fresh "m" in
      let E := fresh "E" in
      destruct (Beautifier._parse_message s) as [m|] eqn:E;
      cbn [bind] in H; [|discriminate H];
      apply beautifier_message_erased in E
  | H : bind (if ?b then _ else _) _ = inl _ |- _ => destruct b eqn:?
  | H : bind ?c _ = inl _ |- _ =>
      destruct c eqn:?; cbn [bind] in H |- *; [|discriminate H]
  | H : (if ?b then _ else _) = inl _ |- _ => destruct b eqn:?
  | H : inl _ = inl _ |- _ => injection H as H; subst
  | H : inr _ = inl _ |- _ => discriminate H
  end.

(** Settles [parser's record = erase (beautifier's record)]. *)
Ltac close_erase a :=
  cbn [bind ret]; unfold erase;
  repeat match goal with
         | E : erase_message _ = _ |- _ => cbn [attr_message set_message set_type set_file set_line set_column set_sys_file set_raw]; rewrite E
         end;
  destruct a; reflexivity.

Lemma classify_numbered_erased (a a' : attributes) (segments : list text) :
  classify_numbered Beautifier._parse_message a segments = ret a' ->
  classify_numbered (fun s => ret (Parser._parse_message s)) (erase a) segments
  = ret (erase a').
Proof.
  unfold classify_numbered, ret, raise. intros H.
  repeat step_erase; close_erase a.
Qed.

Lemma classify_erased (a a' : attributes) (segments : list text) :
  classify Beautifier._parse_message a segments = ret a' ->
  classify (fun s => ret (Parser._parse_message s)) (erase a) segments
  = ret (erase a').
Proof.
  unfold classify, ret, raise. intros H.
  repeat step_erase; try reflexivity; try close_erase a.
  apply classify_numbered_erased in H.
  match goal with
  | |- classify_numbered _ ?A _ = _ =>
      match type of H with
      | classify_numbered _ ?B _ = _ =>
          replace A with B by (destruct a; reflexivity)
      end
  end.
  exact H.
Qed.

Lemma erase_set_raw (a : attributes) (l : text) :
  erase (set_raw a l) = set_raw (erase a) l.
Proof. destruct a. reflexivity. Qed.

(** X9. The beautifier classifies a line as the parser does.  When
    [parse_line] of a beautifier returns, [parse_line] of a parser in the
    same state returns the same record, with the same code fragments in the
    same order, but for the key ["with_tokens"], which only the beautifier
    adds; the two instances are left in the same state, but for that key. *)
Theorem beautifier_classifies_as_parser
    (self : Parser.t) (line : text) (a : attributes) (p : Parser.t) :
  Beautifier.parse_line self line = ret (a, p) ->
  Parser.parse_line (erase_instance self) line
  = ret (erase a, erase_instance p).
Proof.
  unfold Beautifier.parse_line, Parser.parse_line, parse_line_with.
  cbv zeta. cbn [erase_instance _line _attributes].
  unfold ret, raise. intros H.
  match type of H with
  | bind ?c _ = _ => destruct c as [a1|e] eqn:Hbranch
  end; cbn [bind] in H; [|discriminate H].
  injection H as Ha Hp. subst a1. rewrite <- Hp.
  cbn [erase_instance _line _attributes].
  rewrite <- erase_set_raw.
  match goal with
  | |- bind ?c _ = _ => assert (Hparser : c = inl (erase a))
  end.
  { destruct (map strip _) as [|s0 [|s1 rest]].
    - injection Hbranch as <-. reflexivity.
    - repeat step_erase.
      match goal with
      | |- context [set_raw ?x ?l] => close_erase x
      end.
    - exact (classify_erased _ _ _ Hbranch). }
  rewrite Hparser. reflexivity.
Qed.

Lemma beautifier_classifies_as_parser_witness :
  exists a p,
    Beautifier.parse_line (Parser.__init__ [])
      (u "a.cpp:3: error: f(T) [with T = int]") = ret (a, p)
    /\ map code_with_tokens (msg_codelist (attr_message a))
       = [Some [(u "T", u "int")]]
    /\ Parser.parse_line (erase_instance (Parser.__init__ []))
         (u "a.cpp:3: error: f(T) [with T = int]")
       = ret (erase a, erase_instance p).
Proof.
  eexists. eexists.
  assert (H : Beautifier.parse_line (Parser.__init__ [])
                (u "a.cpp:3: error: f(T) [with T = int]") = ret (_, _))
    by (vm_compute; reflexivity).
  split; [exact H|]. split; [reflexivity|].
  exact (beautifier_classifies_as_parser _ _ _ _ H).
Defined.

(** ** Tokens *)

Lemma next_token_loop_stripped (line : text) (begin : nat) (rest : text) :
  forall d i t,
    next_token_loop line begin d i rest = Some t -> strip t = t.
Proof.
  induction rest as [|c rest IH]; intros d i t H; [discriminate|].
  cbn [next_token_loop] in H.
  destruct (is_delim c && all_zero d).
  - injection H as <-. apply strip_idempotent.
  - destruct (opener c); [exact (IH _ _ _ H)|].
    destruct (closer c); [|exact (IH _ _ _ H)].
    destruct (get _ _ <? 0)%Z; [discriminate | exact (IH _ _ _ H)].
Qed.

(** X10. A token [_next_token] returns has no whitespace at either end. *)
Theorem next_token_stripped (line : text) (begin : nat) (t : text) :
  _next_token line begin = Some t -> strip t = t.
Proof. intros H. exact (next_token_loop_stripped _ _ _ _ _ _ H). Qed.

Lemma next_token_stripped_witness :
  _next_token (u "map< int ,char>") 4 = Some (u "int")
  /\ strip (u "int") = u "int".
Proof.
  assert (H : _next_token (u "map< int ,char>") 4 = Some (u "int"))
    by (vm_compute; reflexivity).
  split; [exact H|].
  exact (next_token_stripped (u "map< int ,char>") 4 _ H).
Defined.

(** X11. Scanning [line] from the offset [begin] gives what scanning the
    slice [line[begin:]] from its start gives: the token depends on the
    text from the offset on only. *)
Theorem next_token_offset (line : text) (begin : nat) :
  _next_token line begin = _next_token (skipn begin line) 0.
Proof.
  unfold _next_token. cbn [skipn]. apply next_token_loop_offset.
Qed.

(** ** The pairs of a with clause *)

Lemma split_equals_pieces (s : text) :
  forall cur piece,
    forallb not_equals cur = true ->
    In piece (split_scan (u "=") 0 cur s) ->
    forallb not_equals piece = true.
Proof.
  induction s as [|c s IH]; intros cur piece Hcur H.
  - simpl in H. destruct H as [<-|[]]. apply forallb_rev. exact Hcur.
  - cbn [split_scan] in H.
    change (startswith (u "=") (c :: s)) with (N.eqb (ch "=") c && true) in H.
    rewrite andb_true_r in H.
    destruct (N.eqb (ch "=") c) eqn:Hc.
    + cbn [List.length u pred] in H. simpl in H. destruct H as [<-|H].
      * apply forallb_rev. exact Hcur.
      * exact (IH [] piece eq_refl H).
    + apply (IH (c :: cur) piece); [|exact H].
      simpl. rewrite Hcur, andb_true_r. unfold not_equals, ischar.
      rewrite N.eqb_sym, Hc. reflexivity.
Qed.

Lemma with_stmts_loop_clean (stmt : text) (rest : text) :
  forall d begin i tokens result,
    Forall (fun kv => clean_token (fst kv) /\ clean_token (snd kv)) tokens ->
    with_stmts_loop stmt d begin i tokens rest = ret result ->
    Forall (fun kv => clean_token (fst kv) /\ clean_token (snd kv)) result.
Proof.
  induction rest as [|c rest IH]; intros d begin i tokens result Htok H.
  - injection H as <-. exact Htok.
  - cbn [with_stmts_loop] in H.
    destruct (ischar "," c && all_zero d).
    + destruct (split (u "=") (slice stmt begin i)) as [|k [|v [|x l]]] eqn:Hs;
        try discriminate.
      apply (IH _ _ _ _ _) in H; [exact H|].
      apply Forall_app. split; [exact Htok|]. constructor; [|constructor].
      assert (Hk : forallb not_equals k = true)
        by (apply (split_equals_pieces (slice stmt begin i) [] k eq_refl);
            unfold split in Hs; rewrite Hs; left; reflexivity).
      assert (Hv : forallb not_equals v = true)
        by (apply (split_equals_pieces (slice stmt begin i) [] v eq_refl);
            unfold split in Hs; rewrite Hs; right; left; reflexivity).
      cbn [fst snd]. unfold clean_token.
      repeat split; try apply strip_idempotent; apply forallb_strip; assumption.
    + destruct (opener c); [exact (IH _ _ _ _ _ Htok H)|].
      destruct (closer c); exact (IH _ _ _ _ _ Htok H).
Qed.

(** X12. A code fragment without [[with] has no substitution and
    [_parse_with_stmts] does not raise on it.  Whenever [_parse_with_stmts]
    returns, every key and every value of its pairs has no whitespace at
    either end and holds no [=]. *)
Theorem with_pairs_are_clean (code : text) :
  (contains (u "[with") code = false -> _parse_with_stmts code = ret [])
  /\ (forall pairs k v,
         _parse_with_stmts code = ret pairs ->
         In (k, v) pairs ->
         (strip k = k /\ forallb not_equals k = true)
         /\ (strip v = v /\ forallb not_equals v = true)).
Proof.
  split.
  - intros H. unfold _parse_with_stmts.
    rewrite (search_with_absent _ H). reflexivity.
  - intros pairs k v H Hin. unfold _parse_with_stmts in H.
    destruct (Re.search_with code) as [stmt|].
    + apply with_stmts_loop_clean in H; [|constructor].
      rewrite Forall_forall in H. exact (H (k, v) Hin).
    + injection H as <-. contradiction.
Qed.

Lemma with_pairs_are_clean_witness :
  _parse_with_stmts (u "f(T) [with T =  std::map<int, char> ]")
  = ret [(u "T", u "std::map<int, char>")]
  /\ strip (u "std::map<int, char>") = u "std::map<int, char>"
  /\ contains (u "[with") (u "f(int)") = false
  /\ _parse_with_stmts (u "f(int)") = ret [].
Proof.
  assert (H : _parse_with_stmts (u "f(T) [with T =  std::map<int, char> ]")
              = ret [(u "T", u "std::map<int, char>")])
    by (vm_compute; reflexivity).
  split; [exact H|]. split.
  - exact (proj1 (proj2 (proj2 (with_pairs_are_clean _) _ _ _ H
                           (or_introl eq_refl)))).
  - split; [reflexivity|].
    apply (proj1 (with_pairs_are_clean (u "f(int)"))). reflexivity.
Defined.

(** ** What [build] returns and what it keeps *)

(** X13. At a level other than None, the text [build] returns never starts
    with [from], [note: previous definition] or [In file included from],
    whatever the wrapper does: such a text is replaced by the empty one. *)
Theorem build_never_returns_suppressed_prefix (b : Beautifier.t) :
  _level b <> LV_NONE ->
  existsb (fun prefix => startswith prefix (fst (build b)))
    suppressed_prefixes = false.
Proof.
  intros Hlevel. unfold build.
  replace (_level b =? LV_NONE)%Z with false
    by (symmetry; apply Z.eqb_neq; exact Hlevel).
  destruct (build_loop _ _ _) as [[stop result] codes].
  destruct stop; [reflexivity|].
  match goal with
  | |- context [if ?e then _ else _] => destruct e eqn:E
  end; [reflexivity | exact E].
Qed.

Lemma build_never_returns_suppressed_prefix_witness :
  process_line LV_NORMAL None (u "from a.h:3:") = ret []
  /\ existsb (fun prefix => startswith prefix
                (fst (build (Beautifier.__init__ (u "from a.h:3:")
                               LV_NORMAL 72 (Some (fun s => s))))))
       suppressed_prefixes = false.
Proof.
  split; [vm_compute; reflexivity|].
  apply build_never_returns_suppressed_prefix. vm_compute. discriminate.
Defined.

Lemma build_loop_keeps (level : Z) (codes : list code) :
  forall result stop result' codes',
    build_loop level result codes = (stop, result', codes') ->
    map code_raw codes' = map code_raw codes
    /\ map code_with_tokens codes' = map code_with_tokens codes.
Proof.
  induction codes as [|c rest IH]; intros result stop result' codes' H.
  - injection H as _ _ <-. split; reflexivity.
  - cbn [build_loop] in H.
    destruct (LV_MODERATE <=? level)%Z.
    + destruct (startswith _ _).
      * injection H as _ _ <-. split; reflexivity.
      * destruct (build_loop level _ rest) as [[s r] cs] eqn:Hrest.
        injection H as _ _ <-. destruct (IH _ _ _ _ Hrest) as [H1 H2].
        cbn. rewrite H1, H2. split; reflexivity.
    + destruct (build_loop level _ rest) as [[s r] cs] eqn:Hrest.
      injection H as _ _ <-. destruct (IH _ _ _ _ Hrest) as [H1 H2].
      cbn. rewrite H1, H2. split; reflexivity.
Qed.

(** X14. [build] rewrites ["formatted"] and [self._result] only: after the
    call, at any level and whatever it returns, the record of the instance
    has the type, file, numbers and raw texts it had, and its code
    fragments, in the same order, have the ["raw"] and the ["with_tokens"]
    they had. *)
Theorem build_keeps_raw (b : Beautifier.t) :
  let b' := snd (build b) in
  same_but_codes (_attributes (parser b)) (_attributes (parser b'))
  /\ map code_raw (codelist b') = map code_raw (codelist b)
  /\ map code_with_tokens (codelist b') = map code_with_tokens (codelist b)
  /\ _line (parser b') = _line (parser b)
  /\ _level b' = _level b.
Proof.
  unfold build, codelist, same_but_codes.
  destruct (_level b =? LV_NONE)%Z; [cbn; repeat split; reflexivity|].
  destruct (build_loop _ _ _) as [[stop result] codes] eqn:Hloop.
  apply build_loop_keeps in Hloop as [H1 H2].
  destruct stop; [cbn; rewrite H1, H2; repeat split; reflexivity|].
  match goal with
  | |- context [if ?e then _ else _] => destruct e
  end; cbn; rewrite H1, H2; repeat split; reflexivity.
Qed.

(** X15. The levels High and All, and any level above Moderate, give for
    every line what Moderate gives. *)
Theorem levels_above_moderate_agree
    (level : Z) (fill : option (text -> text)) (line : text) :
  (LV_MODERATE <= level)%Z ->
  process_line level fill line = process_line LV_MODERATE fill line.
Proof. exact (process_line_above_moderate level fill line). Qed.

Lemma levels_above_moderate_agree_witness :
  process_line LV_HIGH None (u "/usr/include/a.h:3: note: std::x")
  = process_line LV_MODERATE None (u "/usr/include/a.h:3: note: std::x")
  /\ process_line LV_ALL None (u "/usr/include/a.h:3: note: std::x")
     = ret (u "note: x").
Proof.
  split.
  - apply levels_above_moderate_agree. vm_compute. discriminate.
  - vm_compute. reflexivity.
Defined.

(** ** System files *)

Lemma sys_file_at_absent (s : text) :
  startswith (u "/usr/include/") s = false -> Re.sys_file_at s = None.
Proof.
  intros H. unfold Re.sys_file_at.
  destruct (Re.strip_prefix (u "/usr/include/") s) as [r|] eqn:Hr;
    [|reflexivity].
  apply strip_prefix_startswith in Hr. congruence.
Qed.

Lemma sub_sys_file_absent (s : text) :
  contains (u "/usr/include/") s = false -> Re.sub_sys_file s = s.
Proof.
  unfold Re.sub_sys_file. induction s as [|c s IH]; intros H; [reflexivity|].
  cbn [contains] in H. apply orb_false_iff in H as [Hp Hs].
  cbn [Re.sub_sys_file_scan]. rewrite (sys_file_at_absent _ Hp), (IH Hs).
  reflexivity.
Qed.

Lemma strip_prefix_app (p s : text) : Re.strip_prefix p (p ++ s) = Some s.
Proof.
  induction p as [|a p IH]; [reflexivity|]. simpl. rewrite N.eqb_refl. exact IH.
Qed.

Lemma takewhile_app_stop (p : char -> bool) (a : text) (c : char) (b : text) :
  forallb p a = true -> p c = false ->
  takewhile p (a ++ c :: b) = a /\ dropwhile p (a ++ c :: b) = c :: b.
Proof.
  intros Ha Hc. induction a as [|x a IH]; simpl.
  - rewrite Hc. split; reflexivity.
  - simpl in Ha. apply andb_true_iff in Ha as [Hx Ha]. rewrite Hx.
    destruct (IH Ha) as [-> ->]. split; reflexivity.
Qed.

Lemma sub_sys_file_scan_skip (p rest : text) :
  Re.sub_sys_file_scan (List.length p) (p ++ rest)
  = Re.sub_sys_file_scan 0 rest.
Proof. induction p as [|a p IH]; [reflexivity|]. exact IH. Qed.

(** X16. At level Moderate the substitution of the system-file pattern
    removes the location that starts a line, [/usr/include/<name>:<number>: ],
    and leaves the rest of the line when no other system path follows; a
    text that does not hold [/usr/include/] is left as it is. *)
Theorem system_location_removed (name digits rest : text) :
  (contains (u "/usr/include/") rest = false -> Re.sub_sys_file rest = rest)
  /\ (name <> [] -> forallb Re.not_colon name = true ->
      digits <> [] -> forallb isdigit digits = true ->
      contains (u "/usr/include/") rest = false ->
      Re.sub_sys_file (system_location name digits ++ rest) = rest).
Proof.
  split; [apply sub_sys_file_absent|].
  intros Hname Hn Hdigits Hd Hrest.
  assert (Hat : Re.sys_file_at (system_location name digits ++ rest)
                = Some (List.length (system_location name digits))).
  { unfold Re.sys_file_at, system_location.
    rewrite <- !app_assoc, strip_prefix_app.
    destruct (takewhile_app_stop Re.not_colon name (ch ":")
                (digits ++ u ": " ++ rest) Hn eq_refl) as [Ht Hdr].
    change (u ":" ++ digits ++ u ": " ++ rest)
      with (ch ":" :: digits ++ u ": " ++ rest).
    rewrite Ht, Hdr.
    destruct name as [|n0 name']; [contradiction|].
    destruct (takewhile_app_stop isdigit digits (ch ":")
                (ch " " :: rest) Hd eq_refl) as [Htd Hdd].
    change (u ": " ++ rest) with (ch ":" :: ch " " :: rest).
    rewrite Htd, Hdd.
    destruct digits as [|d0 digits']; [contradiction|].
    change (startswith (u ": ") (ch ":" :: ch " " :: rest)) with true.
    cbv iota. f_equal. rewrite !length_app. simpl. lia. }
  unfold Re.sub_sys_file.
  destruct (system_location name digits) as [|c p] eqn:Hloc;
    [discriminate Hloc|].
  cbn [app Re.sub_sys_file_scan]. cbn [app] in Hat. rewrite Hat.
  cbn [List.length pred]. rewrite sub_sys_file_scan_skip.
  apply sub_sys_file_absent. exact Hrest.
Qed.

Lemma system_location_removed_witness :
  Re.sub_sys_file
    (system_location (u "c++/4.4/bits/stl_vector.h") (u "733")
       ++ u "note: candidates are: void push_back(const int&)")
  = u "note: candidates are: void push_back(const int&)".
Proof.
  apply (proj2 (system_location_removed (u "c++/4.4/bits/stl_vector.h")
                  (u "733")
                  (u "note: candidates are: void push_back(const int&)")));
    try reflexivity; discriminate.
Defined.

(** ** The builder of escape sequences *)

Lemma normalize_loop_spec (len : Z) (fuel : nat) :
  (0 <= len)%Z ->
  forall index,
    (- index <= Z.of_nat fuel)%Z ->
    Colors.Posix.normalize_loop fuel len index
    = if (index <? 0)%Z then (index mod (len + 1))%Z else index.
Proof.
  intros Hlen. induction fuel as [|fuel IH]; intros index Hfuel.
  - simpl. destruct (Z.ltb_spec index 0); [lia | reflexivity].
  - cbn [Colors.Posix.normalize_loop].
    destruct (Z.ltb_spec index 0) as [Hneg|Hpos]; [|reflexivity].
    rewrite IH by lia.
    destruct (Z.ltb_spec (len + 1 + index) 0) as [Hn|Hp].
    + replace (len + 1 + index)%Z with (index + 1 * (len + 1))%Z by lia.
      apply Z_mod_plus_full.
    + replace index with ((len + 1 + index) + (-1) * (len + 1))%Z at 2 by lia.
      rewrite Z_mod_plus_full. symmetry. apply Z.mod_small. lia.
Qed.

Lemma normalize_index_spec (len index : Z) :
  (0 <= len)%Z ->
  Colors.Posix.normalize_index len index
  = if (index <? 0)%Z then (index mod (len + 1))%Z else index.
Proof.
  intros Hlen. unfold Colors.Posix.normalize_index.
  apply normalize_loop_spec; [exact Hlen | lia].
Qed.

Lemma normalize_index_end (len : Z) :
  (0 <= len)%Z -> Colors.Posix.normalize_index len (-1) = len.
Proof.
  intros Hlen. rewrite normalize_index_spec by exact Hlen.
  change (-1 <? 0)%Z with true. cbv iota.
  replace (-1)%Z with (len + (-1) * (len + 1))%Z by lia.
  rewrite Z_mod_plus_full. apply Z.mod_small. lia.
Qed.

(** X17. The loop that brings a negative index of [insert] back into the
    string ends, and gives the index modulo the length of the string plus
    one: -1 is the end of the string, and an index is never stored
    negative. *)
Theorem insert_index_normalized (string : text) (index : Z) :
  let len := Z.of_nat (List.length string) in
  Colors.Posix.normalize_index len index
  = (if (index <? 0)%Z then (index mod (len + 1))%Z else index)
  /\ (0 <= index -> Colors.Posix.normalize_index len index = index)%Z
  /\ (index < 0 ->
      0 <= Colors.Posix.normalize_index len index <= len)%Z
  /\ Colors.Posix.normalize_index len (-1) = len.
Proof.
  intros len.
  assert (Hlen : (0 <= len)%Z) by apply Nat2Z.is_nonneg.
  assert (Hspec : forall i, Colors.Posix.normalize_index len i
                            = if (i <? 0)%Z then (i mod (len + 1))%Z else i)
    by (intros i; apply normalize_index_spec; exact Hlen).
  split; [apply Hspec|]. split; [|split].
  - intros H. rewrite Hspec. destruct (Z.ltb_spec index 0); [lia|reflexivity].
  - intros H. rewrite Hspec. destruct (Z.ltb_spec index 0); [|lia].
    pose proof (Z.mod_pos_bound index (len + 1) ltac:(lia)). lia.
  - apply normalize_index_end. exact Hlen.
Qed.

Lemma insert_index_normalized_witness :
  (0 <= Colors.Posix.normalize_index (Z.of_nat (List.length (u "abc"))) (-9)
   <= Z.of_nat (List.length (u "abc")))%Z
  /\ Colors.Posix.normalize_index 3 (-9) = 3%Z.
Proof.
  split; [|reflexivity].
  apply (proj1 (proj2 (proj2 (insert_index_normalized (u "abc") (-9))))).
  reflexivity.
Defined.

Lemma join_nil_concat (l : list text) : join [] l = List.concat l.
Proof.
  induction l as [|x l IH]; [reflexivity|].
  destruct l as [|y l]; [simpl; rewrite app_nil_r; reflexivity|].
  change (join [] (x :: y :: l)) with (x ++ [] ++ join [] (y :: l)).
  rewrite IH. reflexivity.
Qed.

Lemma concat_singletons (s : text) : List.concat (map (fun c => [c]) s) = s.
Proof. induction s as [|c s IH]; [reflexivity|]. simpl. rewrite IH. reflexivity. Qed.

Lemma list_insert_end {A : Type} (l : list A) (x : A) :
  Colors.Posix.list_insert l (Z.of_nat (List.length l)) x = l ++ [x].
Proof.
  unfold Colors.Posix.list_insert.
  destruct (Z.ltb_spec (Z.of_nat (List.length l)) 0) as [H|_]; [lia|].
  rewrite Z.min_id, Nat2Z.id, firstn_all, skipn_all. reflexivity.
Qed.

Lemma list_insert_front {A : Type} (l : list A) (x : A) :
  Colors.Posix.list_insert l 0 x = x :: l.
Proof.
  unfold Colors.Posix.list_insert. change (0 <? 0)%Z with false. cbv iota.
  rewrite Z.min_l by lia. reflexivity.
Qed.

(** X18. With the builder of escape sequences, [highlight_line] leaves the
    text as it is and puts it between two escape sequences, the one of the
    color before it and the one of [RESET] after it.  On the empty text the
    two insertions meet at index 0 and make one sequence, in which the code
    of [RESET] is left out when it is the string already there. *)
Theorem highlight_line_wraps
    (Codes : Colors.codes) (string : text) (color : Colors.code) :
  Errmsg.highlight_line Colors.posix_builder Codes string color
  = match string with
    | _ :: _ =>
        Colors.Posix._build_code [Colors.str color] ++ string
          ++ Colors.Posix._build_code [Colors.str (Colors.RESET Codes)]
    | [] =>
        Colors.Posix._build_code
          (Colors.str color ::
           if Colors.code_in (Colors.RESET Codes) [Colors.str color]
           then []
           else [Colors.str (Colors.RESET Codes)])
    end.
Proof.
  unfold Errmsg.highlight_line.
  cbn [Colors.new Colors.insert Colors.result Colors.posix_builder].
  unfold Colors.Posix.insert at 2.
  cbn [Colors.Posix.__init__ Colors.Posix._str Colors.Posix._codes].
  rewrite normalize_index_spec by apply Nat2Z.is_nonneg.
  change (0 <? 0)%Z with false. cbv iota.
  cbn [Colors.Posix.lookup app].
  unfold Colors.Posix.insert.
  cbn [Colors.Posix._str Colors.Posix._codes].
  rewrite normalize_index_end by apply Nat2Z.is_nonneg.
  destruct string as [|c s].
  - cbn [List.length Z.of_nat Colors.Posix.lookup]. change (0 =? 0)%Z with true.
    cbv iota.
    destruct (Colors.code_in (Colors.RESET Codes) [Colors.str color]);
      cbn [negb]; cbv iota; reflexivity.
  - cbn [Colors.Posix.lookup].
    replace (0 =? Z.of_nat (List.length (c :: s)))%Z with false
      by (symmetry; apply Z.eqb_neq; simpl List.length; lia).
    cbv iota. unfold Colors.Posix.result.
    cbn [Colors.Posix._str Colors.Posix._codes app map fst
         Colors.Posix.sorted_reverse fold_right Colors.Posix.insert_desc].
    replace (Z.of_nat (List.length (c :: s)) <=? 0)%Z with false
      by (symmetry; apply Z.leb_gt; simpl List.length; lia).
    cbv iota. cbn [fold_left Colors.Posix.lookup].
    replace (0 =? Z.of_nat (List.length (c :: s)))%Z with false
      by (symmetry; apply Z.eqb_neq; simpl List.length; lia).
    rewrite Z.eqb_refl. change (0 =? 0)%Z with true. cbv iota.
    replace (List.length (c :: s))
      with (List.length (map (fun c0 : char => [c0]) (c :: s)))
      by apply length_map.
    rewrite list_insert_end, list_insert_front.
    rewrite join_nil_concat. cbn [List.concat]. rewrite concat_app.
    rewrite concat_singletons. cbn [List.concat]. rewrite app_nil_r. reflexivity.
Qed.

Lemma insert_front_int (string : text) (l : list text) (n : Z) :
  Colors.Posix.insert
    {| Colors.Posix._str := string; Colors.Posix._codes := [(0%Z, l)] |}
    0 (Colors.CInt n)
  = {| Colors.Posix._str := string;
       Colors.Posix._codes := [(0%Z, l ++ [Colors.str (Colors.CInt n)])] |}.
Proof.
  unfold Colors.Posix.insert.
  cbn [Colors.Posix._str Colors.Posix._codes].
  rewrite normalize_index_spec by apply Nat2Z.is_nonneg.
  reflexivity.
Qed.

Lemma fold_insert_front_int (string : text) (ns : list Z) :
  forall l,
    fold_left (fun b c => Colors.Posix.insert b 0 c) (map Colors.CInt ns)
      {| Colors.Posix._str := string; Colors.Posix._codes := [(0%Z, l)] |}
    = {| Colors.Posix._str := string;
         Colors.Posix._codes :=
           [(0%Z, l ++ map (fun n => Colors.str (Colors.CInt n)) ns)] |}.
Proof.
  induction ns as [|n ns IH]; intros l; cbn [map fold_left].
  - rewrite app_nil_r. reflexivity.
  - rewrite insert_front_int, IH, <- app_assoc. reflexivity.
Qed.

Lemma result_one_key (string : text) (l : list text) :
  Colors.Posix.result
    {| Colors.Posix._str := string; Colors.Posix._codes := [(0%Z, l)] |}
  = Colors.Posix._build_code l ++ string.
Proof.
  unfold Colors.Posix.result.
  cbn [Colors.Posix._str Colors.Posix._codes map fst
       Colors.Posix.sorted_reverse fold_right Colors.Posix.insert_desc
       fold_left Colors.Posix.lookup].
  change (0 =? 0)%Z with true. cbv iota.
  rewrite list_insert_front, join_nil_concat. cbn [List.concat].
  rewrite concat_singletons. reflexivity.
Qed.

(** X19. With the builder of escape sequences, [colors.color] with integer
    codes puts one escape sequence before the text, which it leaves as it
    is: the codes in the order given, separated by semicolons, repeated
    codes included; without codes the text is returned as it is. *)
Theorem color_prepends_one_sequence (string : text) (ns : list Z) :
  Colors.color Colors.posix_builder string (map Colors.CInt ns)
  = match ns with
    | [] => string
    | _ :: _ =>
        Colors.Posix._build_code
          (map (fun n => Colors.str (Colors.CInt n)) ns) ++ string
    end.
Proof.
  unfold Colors.color.
  cbn [Colors.new Colors.insert Colors.result Colors.posix_builder].
  destruct ns as [|n ns].
  - cbn [map fold_left]. unfold Colors.Posix.result, Colors.Posix.__init__.
    cbn [Colors.Posix._str Colors.Posix._codes map
         Colors.Posix.sorted_reverse fold_right fold_left].
    rewrite join_nil_concat. apply concat_singletons.
  - cbn [map fold_left].
    replace (Colors.Posix.insert (Colors.Posix.__init__ string) 0
               (Colors.CInt n))
      with {| Colors.Posix._str := string;
              Colors.Posix._codes := [(0%Z, [Colors.str (Colors.CInt n)])] |}.
    + rewrite fold_insert_front_int, result_one_key. reflexivity.
    + unfold Colors.Posix.insert, Colors.Posix.__init__.
      cbn [Colors.Posix._str Colors.Posix._codes].
      rewrite normalize_index_spec by apply Nat2Z.is_nonneg. reflexivity.
Qed.

(** ** The formatter *)

Section FormatProperties.

Context (B : Colors.Builder) (Codes : Colors.codes).
Variable linesep : text.
Variable argv : list text.
Variable fill : text -> text.

Lemma format_loop_returns (color : bool) (level : Z) (lines : list text) :
  (exists out,
      Formatter.format_loop B Codes argv fill color level lines = ret out)
  <-> Forall parses lines.
Proof.
  induction lines as [|line rest IH].
  - split; [constructor | exists []; reflexivity].
  - cbn [Formatter.format_loop]. cbn [Beautifier.__init__ parser].
    split.
    + intros [out H]. unfold ret, raise in *.
      destruct (Beautifier.parse_line (Parser.__init__ line) []) as [r|e] eqn:Hr;
        cbn [bind] in H; [|discriminate H].
      destruct (Formatter.format_loop B Codes argv fill color level rest)
        as [out'|e] eqn:Hrest; cbn [bind] in H; [|discriminate H].
      constructor; [exists r; exact Hr|].
      apply IH. exists out'. reflexivity.
    + intros H. inversion H as [|? ? [r Hr] Hrest]; subst.
      apply IH in Hrest as [out' Hout]. rewrite Hr, Hout.
      cbn [bind]. eexists. reflexivity.
Qed.

Lemma format_loop_none (lines : list text) (out : list text) :
  Formatter.format_loop B Codes argv fill false LV_NONE lines = ret out ->
  out = filter nonempty lines.
Proof.
  revert out. induction lines as [|line rest IH]; intros out H.
  - injection H as <-. reflexivity.
  - cbn [Formatter.format_loop] in H. unfold ret, raise in *.
    destruct (Beautifier.parse_line _ _) as [r|e]; cbn [bind] in H;
      [|discriminate H].
    destruct (Formatter.format_loop B Codes argv fill false LV_NONE rest)
      as [out'|e] eqn:Hrest; cbn [bind] in H; [|discriminate H].
    rewrite (IH out' eq_refl) in H.
    unfold build in H. cbn in H. injection H as <-.
    destruct line; reflexivity.
Qed.

End FormatProperties.

(** X20. [format] returns exactly when [parse_line] returns on every line
    of the output: at every level, None included, and with or without
    colors, one line on which [parse_line] raises makes [format] raise, and
    nothing else does. *)
Theorem format_returns_iff_lines_parse
    (B : Colors.Builder) (Codes : Colors.codes) (linesep : text)
    (argv : list text) (fill : text -> text)
    (output : text) (color : bool) (level : Z) :
  (exists out,
      Formatter.format B Codes linesep argv fill output color level = ret out)
  <-> Forall parses (Formatter.splitlines output).
Proof.
  unfold Formatter.format. rewrite <- (format_loop_returns B Codes argv fill color level).
  split.
  - intros [out H]. unfold ret, raise in *.
    destruct (Formatter.format_loop _ _ _ _ _ _ _) as [l|e];
      [exists l; reflexivity | discriminate H].
  - intros [l H]. rewrite H. eexists. reflexivity.
Qed.

(** X21. At level None and without colors, [format], when it returns,
    returns the lines of the output that are not empty, each as it is, in
    their order, joined by the line separator: the empty lines are
    dropped. *)
Theorem format_none_keeps_lines
    (B : Colors.Builder) (Codes : Colors.codes) (linesep : text)
    (argv : list text) (fill : text -> text) (output out : text) :
  Formatter.format B Codes linesep argv fill output false LV_NONE = ret out ->
  out = join linesep (filter nonempty (Formatter.splitlines output)).
Proof.
  unfold Formatter.format, ret, raise. intros H.
  destruct (Formatter.format_loop _ _ _ _ _ _ _) as [l|e] eqn:Hl;
    cbn [bind] in H; [|discriminate H].
  injection H as <-. apply format_loop_none in Hl. rewrite Hl. reflexivity.
Qed.

Lemma format_none_keeps_lines_witness :
  Formatter.format Colors.posix_builder Colors.fake_codes [10%N] []
    (fun s => s) sample_output false LV_NONE
  = ret (u "a.cpp: In function f" ++ [10%N] ++ u "  a.cpp:3: error: x")
  /\ u "a.cpp: In function f" ++ [10%N] ++ u "  a.cpp:3: error: x"
     = join [10%N] (filter nonempty (Formatter.splitlines sample_output)).
Proof.
  assert (H : Formatter.format Colors.posix_builder Colors.fake_codes [10%N] []
                (fun s => s) sample_output false LV_NONE
              = ret (u "a.cpp: In function f" ++ [10%N]
                       ++ u "  a.cpp:3: error: x"))
    by (vm_compute; reflexivity).
  split; [exact H|].
  exact (format_none_keeps_lines _ _ _ _ _ _ _ H).
Defined.

Lemma highlight_fake (Codes : Colors.codes) (s : text) (c : Colors.code) :
  Errmsg.highlight_line Colors.fake_builder Codes s c = s.
Proof. reflexivity. Qed.

Lemma color_types_fake (Codes : Colors.codes) (type : option line_type)
    (s : text) :
  Formatter.color_types Colors.fake_builder Codes type s = s.
Proof. destruct type as [[]|]; reflexivity. Qed.

Lemma format_loop_plain
    (B : Colors.Builder) (Codes : Colors.codes) (argv : list text)
    (fill : text -> text) (level : Z) (lines : list text) :
  (forall type s, Formatter.color_types B Codes type s = s)
  \/ mem (u "-C") argv = true ->
  Formatter.format_loop B Codes argv fill true level lines
  = Formatter.format_loop B Codes argv fill false level lines.
Proof.
  intros Hplain. induction lines as [|line rest IH]; [reflexivity|].
  cbn [Formatter.format_loop]. rewrite IH.
  destruct (Beautifier.parse_line _ _) as [r|e]; [|reflexivity].
  cbn [bind].
  destruct (Formatter.format_loop B Codes argv fill false level rest)
    as [out|e]; [|reflexivity].
  cbn [bind]. f_equal.
  destruct (fst (build _)) as [|c s]; [reflexivity|].
  f_equal. destruct Hplain as [Hplain| ->]; [|reflexivity].
  destruct (negb (mem (u "-C") argv)); apply Hplain.
Qed.

(** X22. Colors change nothing where there are none: with the builder
    that does not color (the one chosen off posix), and, with any builder,
    when [-C] is among the arguments of the program, [format] with colors
    returns what [format] without colors returns. *)
Theorem format_without_colors
    (B : Colors.Builder) (Codes : Colors.codes) (linesep : text)
    (argv : list text) (fill : text -> text) (output : text) (level : Z) :
  Formatter.format Colors.fake_builder Codes linesep argv fill output true level
  = Formatter.format Colors.fake_builder Codes linesep argv fill output false
      level
  /\ (mem (u "-C") argv = true ->
      Formatter.format B Codes linesep argv fill output true level
      = Formatter.format B Codes linesep argv fill output false level).
Proof.
  unfold Formatter.format. split.
  - rewrite format_loop_plain; [reflexivity|].
    left. apply color_types_fake.
  - intros HC. rewrite format_loop_plain; [reflexivity|]. right. exact HC.
Qed.

Lemma format_without_colors_witness :
  mem (u "-C") [u "kcc"; u "-C"] = true
  /\ Formatter.format Colors.posix_builder Colors.fake_codes [10%N]
       [u "kcc"; u "-C"] (fun s => s) sample_output true LV_NORMAL
     = Formatter.format Colors.posix_builder Colors.fake_codes [10%N]
         [u "kcc"; u "-C"] (fun s => s) sample_output false LV_NORMAL.
Proof.
  split; [reflexivity|].
  apply (proj2 (format_without_colors Colors.posix_builder Colors.fake_codes
                  [10%N] [u "kcc"; u "-C"] (fun s => s) sample_output
                  LV_NORMAL)).
  reflexivity.
Defined.

(** ** Lines the parser always classifies *)

Lemma digits_value_total (s : text) :
  forall acc, forallb isdigit s = true -> exists n, digits_value acc s = Some n.
Proof.
  induction s as [|c s IH]; intros acc H; simpl.
  - exists acc. reflexivity.
  - simpl in H. apply andb_true_iff in H as [Hc Hs]. rewrite Hc.
    exact (IH _ Hs).
Qed.

Lemma int_total (s : text) :
  Re.match_number s = true -> numeral_or_text s = true ->
  exists n, int s = ret n.
Proof.
  unfold numeral_or_text. intros Hm H. rewrite Hm in H. simpl in H.
  unfold int. destruct s as [|c s]; [discriminate|].
  destruct (digits_value_total (c :: s) 0 H) as [n Hn]. rewrite Hn.
  exists n. reflexivity.
Qed.

Lemma classify_numbered_returns (a : attributes) (s0 s1 s2 s3 : text)
    (rest : list text) :
  Re.match_number s1 = true ->
  numeral_or_text s1 = true -> numeral_or_text s2 = true ->
  exists a',
    classify_numbered (fun s => ret (Parser._parse_message s)) a
      (s0 :: s1 :: s2 :: s3 :: rest) = ret a'.
Proof.
  intros Hm H1 H2. unfold classify_numbered.
  destruct (int_total s1 Hm H1) as [n Hn].
  cbn [index nth_error]. unfold ret in *. cbn [bind]. rewrite Hn. cbn [bind].
  destruct (mem (u "error") _ && _).
  - destruct (eqb s2 (u "error")); [eexists; reflexivity|].
    destruct (eqb s3 (u "error")); [|eexists; reflexivity].
    destruct (Re.match_number s2) eqn:Hm2.
    + destruct (int_total s2 Hm2 H2) as [c Hc]. unfold ret in Hc.
      rewrite Hc. eexists. reflexivity.
    + eexists. reflexivity.
  - destruct (eqb s2 (u "warning")); [eexists; reflexivity|].
    destruct (eqb s2 (u "note")); eexists; reflexivity.
Qed.

(** X23. A line of four segments or more is always classified by the
    parser, without exception, when its second and third segments are
    numerals or do not start with a digit: the only exceptions of
    [parse_line] come from a list of segments too short for the indexes
    read, and from [int] on a segment that starts with a digit and is not a
    numeral. *)
Theorem long_lines_are_classified (self : Parser.t) (line : text) :
  4 <= List.length (segments_of (line_read self line)) ->
  numeral_or_text (nth 1 (segments_of (line_read self line)) []) = true ->
  numeral_or_text (nth 2 (segments_of (line_read self line)) []) = true ->
  exists a p, Parser.parse_line self line = ret (a, p).
Proof.
  unfold Parser.parse_line, parse_line_with, segments_of. cbv zeta.
  rewrite effective_line.
  destruct (map strip (Re.split_sep (strip (line_read self line))))
    as [|s0 [|s1 [|s2 [|s3 rest]]]];
    cbn [List.length nth]; try lia.
  intros _ H1 H2.
  assert (Hc : exists a',
    classify (fun s => ret (Parser._parse_message s))
      (set_raw (_attributes self) (strip (line_read self line)))
      (normalize_first s0 :: s1 :: s2 :: s3 :: rest) = ret a').
  { unfold classify. cbn [index nth_error]. unfold ret at 1 2. cbn [bind].
    unfold ret. destruct (eqb _ (u "collect2")); [eexists; reflexivity|].
    destruct (Re.match_file _); [|eexists; reflexivity].
    cbn [bind].
    destruct (Re.match_linker s1); [eexists; reflexivity|].
    destruct (Re.match_number s1) eqn:Hm.
    - apply classify_numbered_returns; assumption.
    - destruct (Re.match_message s1); eexists; reflexivity. }
  destruct Hc as [a' ->]. eexists. eexists. reflexivity.
Qed.

Lemma long_lines_are_classified_witness :
  4 <= List.length
         (segments_of (line_read (Parser.__init__ [])
                         (u "a.cpp:12:7: error: x")))
  /\ exists a p,
       Parser.parse_line (Parser.__init__ []) (u "a.cpp:12:7: error: x")
       = ret (a, p).
Proof.
  split; [vm_compute; lia|].
  apply (long_lines_are_classified (Parser.__init__ [])
           (u "a.cpp:12:7: error: x")).
  - vm_compute. lia.
  - reflexivity.
  - reflexivity.
Defined.

(** ** Rewrites that never lengthen *)

(** X24. A code fragment for which the with clause gives no pair (there is
    no clause, or its body ends inside a bracket) is never made longer by
    the beautifier, at any level: what remains of the rewriting (the clause
    deleted, the text trimmed, [> >] collapsed, the prefixes removed, the
    typedefs compacted, the default arguments of the containers left out)
    only removes characters. *)
Theorem beautify_never_lengthens (level : Z) (f g : text) :
  _parse_with_stmts f = ret [] ->
  beautify level f = ret g ->
  List.length g <= List.length f.
Proof.
  intros Htok H. unfold beautify in H. rewrite Htok in H.
  cbn [bind ret] in H. unfold ret in H. injection H as <-.
  assert (Hn : List.length
                 (rewrite_normal
                    {| code_raw := f; code_with_tokens := Some [];
                       code_formatted := None |} f) <= List.length f).
  { unfold rewrite_normal. cbn [code_with_tokens fold_left].
    etransitivity; [apply length_parse_templates|].
    etransitivity; [apply length_compact_typedefs|].
    etransitivity; [apply length_replace; [discriminate | simpl; lia]|].
    etransitivity; [apply length_replace; [discriminate | simpl; lia]|].
    etransitivity; [apply length_collapse_loop|].
    etransitivity; [apply length_strip|].
    apply length_sub_with_scan. }
  assert (Hm : forall x, List.length (rewrite_moderate x) <= List.length x).
  { intros x. unfold rewrite_moderate.
    etransitivity; [apply length_replace; [discriminate | simpl; lia]|].
    apply length_replace; [discriminate | simpl; lia]. }
  destruct (LV_NORMAL <=? level)%Z, (LV_MODERATE <=? level)%Z;
    try (etransitivity; [apply Hm|]); try exact Hn; lia.
Qed.

Lemma beautify_never_lengthens_witness :
  _parse_with_stmts (u "std::vector<int, std::allocator<int> >") = ret []
  /\ beautify LV_ALL (u "std::vector<int, std::allocator<int> >")
     = ret (u "vector<int>")
  /\ List.length (u "vector<int>")
     <= List.length (u "std::vector<int, std::allocator<int> >").
Proof.
  assert (H1 : _parse_with_stmts (u "std::vector<int, std::allocator<int> >")
               = ret []) by (vm_compute; reflexivity).
  assert (H2 : beautify LV_ALL (u "std::vector<int, std::allocator<int> >")
               = ret (u "vector<int>")) by (vm_compute; reflexivity).
  split; [exact H1|]. split; [exact H2|].
  exact (beautify_never_lengthens LV_ALL _ _ H1 H2).
Defined.
